(** * cloudflare-php-log: the worker's request handler and the analytics client

    A shallow embedding of [src/index.ts] (the handler with the cached
    reporting endpoints) and of [src/analyticsClient.ts] (the tolerant
    query helper), followed by the properties proved about them.

    Conventions of the embedding:
    - JavaScript strings that the program handles (URL paths, header values,
      tokens) are byte strings: a URL path is ASCII after parsing and a
      header value is a ByteString, so one character is one [ascii];
    - JavaScript numbers are integers ([Z]) of the range in which a number
      prints as its digits (below 10^21 in magnitude); the only numbers the
      program looks at are ASNs and HTTP status codes;
    - an object is the list of its own properties in the order in which they
      were created; the order in which the object lists its keys
      (integer-like keys first) is computed from it by [JS.ownKeys];
    - a header is the value that [headers.get] returns, which is the value
      sent with the white space around it removed ([headerValue]);
    - the key-value store, the analytics sink, the analytics SQL endpoint,
      the origin and the random source are external: they are fields of a
      [World] (what they answer) and of a [State] (what they hold), and every
      call the handler makes to one of them is recorded in a trace, in the
      order of the calls. *)

From Stdlib Require Import ZArith Ascii DecimalString.
From stdpp Require Import gmap strings list.

Local Open Scope Z_scope.

(** ** JavaScript values *)

#[warnings="-register-all"]
Inductive JSValue : Type :=
| VUndefined
| VNull
| VBool (b : bool)
| VNum (n : Z)
| VStr (s : string)
| VArr (elems : list JSValue)
| VObj (props : list (string * JSValue)).

Module JS.

(** [ToBoolean]: what [if (v)], [!v], [v || d] and [v && w] test. *)
Definition truthy (v : JSValue) : bool :=
  match v with
  | VUndefined | VNull => false
  | VBool b => b
  | VNum n => negb (n =? 0)
  | VStr s => negb (String.eqb s "")
  | VArr _ | VObj _ => true
  end.

Definition isArray (v : JSValue) : bool :=
  match v with VArr _ => true | _ => false end.

(** [typeof v === 'object'] (which holds of [null] and of arrays too). *)
Definition typeofObject (v : JSValue) : bool :=
  match v with VNull | VArr _ | VObj _ => true | _ => false end.

Definition typeofString (v : JSValue) : bool :=
  match v with VStr _ => true | _ => false end.

(** [v != null]: neither [null] nor [undefined]. *)
Definition notNullish (v : JSValue) : bool :=
  match v with VUndefined | VNull => false | _ => true end.

Fixpoint lookupProp (k : string) (props : list (string * JSValue)) : JSValue :=
  match props with
  | [] => VUndefined
  | (k', v) :: rest => if String.eqb k k' then v else lookupProp k rest
  end.

(** [v.k] for one of the names the program reads (meta, schema, columns,
    name, data, rows, result, items, country, region, asn) on a value that
    is neither [null] nor [undefined]: none of these names is a property of
    an array, a string, a number or a boolean. *)
Definition getProp (v : JSValue) (k : string) : JSValue :=
  match v with
  | VObj props => lookupProp k props
  | _ => VUndefined
  end.

(** [v?.k] *)
Definition optChain (v : JSValue) (k : string) : JSValue :=
  if notNullish v then getProp v k else VUndefined.

(** [String(n)] for an integer below 10^21 in magnitude: its digits. *)
Definition decimal (n : Z) : string := NilZero.string_of_int (Z.to_int n).

(** [String(v)] *)
Fixpoint toString (v : JSValue) : string :=
  match v with
  | VUndefined => "undefined"
  | VNull => "null"
  | VBool true => "true"
  | VBool false => "false"
  | VNum n => decimal n
  | VStr s => s
  | VArr elems =>
      (fix join (l : list JSValue) : string :=
         match l with
         | [] => ""
         | x :: rest =>
             let sx := match x with
                       | VUndefined | VNull => ""
                       | _ => toString x
                       end in
             match rest with
             | [] => sx
             | _ => sx +:+ "," +:+ join rest
             end
         end) elems
  | VObj _ => "[object Object]"
  end.

(** An own property is created or updated: an existing one keeps its place
    and takes the new value, a new one is added last. *)
Fixpoint setOwn (props : list (string * JSValue)) (k : string) (v : JSValue)
  : list (string * JSValue) :=
  match props with
  | [] => [(k, v)]
  | (k', v') :: rest =>
      if String.eqb k k' then (k', v) :: rest else (k', v') :: setOwn rest k v
  end.

Definition hasOwn (k : string) (props : list (string * JSValue)) : bool :=
  existsb (fun p => String.eqb k (fst p)) props.

(** Whether, once [v] has become the prototype of an object, the name
    [__proto__] no longer reaches the accessor of [Object.prototype]:
    [null] ends the chain, an object with an own property of that name
    shadows the accessor. *)
Definition hidesProtoSetter (v : JSValue) : bool :=
  match v with
  | VNull => true
  | VObj props => hasOwn "__proto__" props
  | _ => false
  end.

(** [o[k] = v] on an object made by [{}]. The flag says whether the name
    [__proto__] has stopped reaching the accessor inherited from
    [Object.prototype]. While it reaches it, assigning to [__proto__]
    creates no own property: an object or [null] becomes the prototype,
    any other value is ignored. Every other assignment creates or updates
    an own property. *)
Definition setProp (detached : bool) (props : list (string * JSValue))
           (k : string) (v : JSValue) : bool * list (string * JSValue) :=
  if String.eqb k "__proto__" && negb detached
  then (hidesProtoSetter v, props)
  else (detached, setOwn props k v).

(** The value of a name that is an array index: the digits of an integer
    up to 2^32 - 2, without a leading zero. *)
Definition digitValue (c : ascii) : option N :=
  let n := N_of_ascii c in
  if ((48 <=? n) && (n <=? 57))%N then Some (n - 48)%N else None.

Fixpoint digitsValue (s : string) (acc : N) : option N :=
  match s with
  | EmptyString => Some acc
  | String c s' =>
      match digitValue c with
      | Some d => digitsValue s' (10 * acc + d)%N
      | None => None
      end
  end.

Definition arrayIndex (k : string) : option N :=
  match k with
  | EmptyString => None
  | String c EmptyString => digitValue c
  | String c _ =>
      if Ascii.eqb c "0" then None
      else match digitsValue k 0 with
           | Some n => if (n <=? 4294967294)%N then Some n else None
           | None => None
           end
  end.

Fixpoint insertIndex (n : N) (k : string) (l : list (N * string))
  : list (N * string) :=
  match l with
  | [] => [(n, k)]
  | (m, k') :: rest =>
      if (n <=? m)%N then (n, k) :: l else (m, k') :: insertIndex n k rest
  end.

(** The keys in the order in which the object lists them
    ([Object.keys], [JSON.stringify]): the array indices in ascending
    order, then the other names in the order of their creation. *)
Definition ownKeys (props : list (string * JSValue)) : list string :=
  let indices :=
    fold_right (fun p acc => match arrayIndex (fst p) with
                             | Some n => insertIndex n (fst p) acc
                             | None => acc
                             end) [] props in
  map snd indices
  ++ omap (fun p => match arrayIndex (fst p) with
                    | Some _ => None
                    | None => Some (fst p)
                    end) props.

(** [s.slice(0, n)] for [0 <= n]. *)
Definition slice0 (n : nat) (s : string) : string := String.substring 0 n s.

(** [s.startsWith(p)] *)
Definition startsWith (p s : string) : bool := String.prefix p s.

(** [s.slice(n)] for [0 <= n]. *)
Fixpoint sliceFrom (n : nat) (s : string) : string :=
  match n, s with
  | O, _ => s
  | S n', String _ s' => sliceFrom n' s'
  | S _, EmptyString => EmptyString
  end.

End JS.

(** ** Regular-expression literals

    The two patterns of the handler use literals, a character class, the two
    anchors, sequence and alternation; both carry the [i] flag and neither
    the [m] flag, so [$] is the end of the input and [^] its start. *)

Inductive regex : Type :=
| REmpty
| RChar (c : ascii)
| RSet (cs : list ascii)
| RBegin
| REnd
| RSeq (r1 r2 : regex)
| RAlt (r1 r2 : regex).

Module Regex.

(** Canonicalisation under the [i] flag: the upper-case form. Only the
    letters a-z change: without the [u] flag a character outside ASCII is
    never canonicalised to an ASCII one, and the patterns are ASCII. *)
Definition canon (c : ascii) : ascii :=
  let n := nat_of_ascii c in
  if ((97 <=? n)%nat && (n <=? 122)%nat)%bool then ascii_of_nat (n - 32) else c.

Definition chEq (ci : bool) (a b : ascii) : bool :=
  if ci then Ascii.eqb (canon a) (canon b) else Ascii.eqb a b.

(** [rmatch ci r pos s k]: [r] matches a prefix of [s], which starts at
    index [pos] of the input, and [k] accepts what follows. *)
Fixpoint rmatch (ci : bool) (r : regex) (pos : nat) (s : string)
         (k : nat -> string -> bool) : bool :=
  match r with
  | REmpty => k pos s
  | RChar c =>
      match s with
      | String a s' => if chEq ci a c then k (S pos) s' else false
      | EmptyString => false
      end
  | RSet cs =>
      match s with
      | String a s' => if existsb (chEq ci a) cs then k (S pos) s' else false
      | EmptyString => false
      end
  | RBegin => if (pos =? 0)%nat then k pos s else false
  | REnd => match s with EmptyString => k pos s | _ => false end
  | RSeq r1 r2 => rmatch ci r1 pos s (fun p s' => rmatch ci r2 p s' k)
  | RAlt r1 r2 => rmatch ci r1 pos s k || rmatch ci r2 pos s k
  end.

(** A match attempt at every start index, left to right. *)
Fixpoint search (ci : bool) (r : regex) (pos : nat) (s : string) : bool :=
  rmatch ci r pos s (fun _ _ => true)
  || match s with
     | EmptyString => false
     | String _ s' => search ci r (S pos) s'
     end.

(** [re.test(s)] *)
Definition test (ci : bool) (r : regex) (s : string) : bool := search ci r 0 s.

(** The pattern made of the literal characters of [s]. *)
Fixpoint lit (s : string) : regex :=
  match s with
  | EmptyString => REmpty
  | String c EmptyString => RChar c
  | String c s' => RSeq (RChar c) (lit s')
  end.

End Regex.

(** ** The request classifier ([index.ts], the two local functions) *)

(** [/\.php(?:$|[\/?])/i] *)
Definition phpPattern : regex :=
  RSeq (Regex.lit ".php") (RAlt REnd (RSet ["/"%char; "?"%char])).

Definition isPhpPath (path : string) : bool := Regex.test true phpPattern path.

(** [/^\/_php_log/i] *)
Definition apiPattern : regex := RSeq RBegin (Regex.lit "/_php_log").

Definition isAPIPath (path : string) : bool := Regex.test true apiPattern path.

(** ** Errors and the handler monad

    A thrown value is an [Error] object: its name and its message. A
    computation reads and changes the [State]
    and either returns or throws; the state survives a throw. *)

Record JSError : Type := mkError { err_name : string; err_message : string }.

(** [String(err)], that is [Error.prototype.toString]: the message alone
    when the name is empty, the name alone when the message is empty, both
    with a colon between them otherwise. *)
Definition errorToString (e : JSError) : string :=
  if String.eqb (err_name e) "" then err_message e
  else if String.eqb (err_message e) "" then err_name e
       else err_name e +:+ ": " +:+ err_message e.

Inductive Exc (A : Type) : Type :=
| Ret (a : A)
| Throw (e : JSError).
Arguments Ret {A} a.
Arguments Throw {A} e.

(** ** The outside world *)

(** The argument of [writeDataPoint]. *)
Record DataPoint : Type := mkDataPoint {
  blobs : list string;
  doubles : list Z;
  indexes : list string
}.

(** What a call of [writeDataPoint] does: it returns, it throws, or it
    returns a promise that rejects. *)
Inductive SinkBehaviour : Type :=
| SinkAccepts
| SinkThrows (e : JSError)
| SinkRejects (e : JSError).

(** The request sent to the analytics SQL endpoint. *)
Record ApiCall : Type := mkApiCall {
  api_method : string;
  api_url : string;
  api_authorization : string;
  api_contentType : string;
  api_body : string
}.

(** The endpoint's reply: its status, what [text()] resolves to ([None] when
    reading the body fails) and what [json()] resolves to or rejects with. *)
Record ApiReply : Type := mkApiReply {
  reply_status : Z;
  reply_text : option string;
  reply_json : Exc JSValue
}.

(** [response.ok] *)
Definition reply_ok (r : ApiReply) : bool :=
  (200 <=? reply_status r) && (reply_status r <=? 299).

(** A response body: a text, the text [JSON.stringify(v, null, 2)] of a
    value, or no body. *)
Inductive Body : Type :=
| BodyText (s : string)
| BodyJson (v : JSValue)
| BodyNone.

Record Response : Type := mkResponse {
  status : Z;
  body : Body;
  contentType : option string;
  xCache : option string
}.

(** White space that [headers.get] removes around a header value. *)
Definition isHttpWhitespace (c : ascii) : bool :=
  let n := nat_of_ascii c in
  ((n =? 9) || (n =? 10) || (n =? 13) || (n =? 32))%nat.

Fixpoint stripLeading (s : string) : string :=
  match s with
  | EmptyString => EmptyString
  | String c s' => if isHttpWhitespace c then stripLeading s' else s
  end.

Fixpoint stripTrailing (s : string) : string :=
  match s with
  | EmptyString => EmptyString
  | String c s' =>
      match stripTrailing s' with
      | EmptyString => if isHttpWhitespace c then EmptyString
                       else String c EmptyString
      | t => String c t
      end
  end.

(** What [headers.get] returns for a header sent with the value [raw]. *)
Definition headerValue (raw : string) : string := stripTrailing (stripLeading raw).

(** A request as the handler reads it; the two headers are what
    [headers.get] returns for them. *)
Record Request : Type := mkRequest {
  req_hostname : string;                  (* new URL(request.url).hostname *)
  req_pathname : string;                  (* new URL(request.url).pathname *)
  req_userAgent : option string;          (* headers.get('user-agent') *)
  req_authorization : option string;      (* headers.get('authorization') *)
  req_cf : JSValue                        (* (request as any).cf *)
}.

(** The text a key of the store holds: the serialisation of a JSON value
    (which reading with [type: 'json'] parses back), or the literal text
    [undefined], which is what a store that coerces its argument to a string
    keeps when it is handed [undefined]. *)
Inductive KvText : Type :=
| JsonText (v : JSValue)
| UndefinedText.

Record World : Type := mkWorld {
  QUERY_TOKEN : string;
  ACCOUNT_ID : string;
  ANALYTICS_API_TOKEN : string;
  (* env.PHP_LOG_AE.writeDataPoint *)
  sink : DataPoint -> SinkBehaviour;
  (* crypto.randomUUID: the n-th identifier drawn *)
  randomUUID : nat -> string;
  (* the global fetch, on the analytics SQL endpoint *)
  apiFetch : ApiCall -> Exc ApiReply;
  (* PHP_LOG_KV.put handed undefined: the error it throws, or [None] when
     it stores the text undefined *)
  kvPutUndefined : option JSError;
  (* the global fetch on the inbound request, and the service binding *)
  originFetch : Request -> Exc Response;
  serviceFetch : Request -> Exc Response
}.

Definition withSink (w : World) (s : DataPoint -> SinkBehaviour) : World :=
  mkWorld (QUERY_TOKEN w) (ACCOUNT_ID w) (ANALYTICS_API_TOKEN w) s
          (randomUUID w) (apiFetch w) (kvPutUndefined w)
          (originFetch w) (serviceFetch w).

(** The promise handed to [waitUntil]: the promise of the write with the
    handler of [.catch] attached. It always fulfils; when the promise of
    the write rejects, the handler logs the error under its label, as a
    reaction to the rejection and so at some time after the registration. *)
Inductive Background : Type :=
| Settles
| LogsRejection (label : string) (e : JSError).

(** Calls that the handler makes, in the order it makes them. What a
    registered promise does later is carried by its [WaitUntil] entry. *)
Inductive Effect : Type :=
| WriteDataPoint (dp : DataPoint)
| WaitUntil (task : Background)
| ConsoleError (label : string) (e : JSError)
| KvGet (key : string)
| KvPut (key : string) (text : KvText) (ttl : Z)
| ApiFetch (call : ApiCall)
| OriginFetch
| ServiceFetch.

Record State : Type := mkState {
  kv : gmap string (KvText * Z);     (* PHP_LOG_KV: text and TTL per key *)
  draws : nat;                       (* identifiers drawn so far *)
  trace : list Effect
}.

Definition M (A : Type) : Type := State -> Exc A * State.

Definition ret {A} (a : A) : M A := fun st => (Ret a, st).
Definition throw {A} (e : JSError) : M A := fun st => (Throw e, st).
Definition bind {A B} (m : M A) (k : A -> M B) : M B :=
  fun st => match m st with
            | (Ret a, st') => k a st'
            | (Throw e, st') => (Throw e, st')
            end.
(** [try { m } catch (err) { h err }] *)
Definition tryCatch {A} (m : M A) (h : JSError -> M A) : M A :=
  fun st => match m st with
            | (Ret a, st') => (Ret a, st')
            | (Throw e, st') => h e st'
            end.
Definition lift {A} (r : Exc A) : M A := fun st => (r, st).
Definition emit (e : Effect) : M unit :=
  fun st => (Ret tt, mkState (kv st) (draws st) (trace st ++ [e])).

Notation "'do' x <- m ; k" := (bind m (fun x => k))
  (at level 10, x name, m at level 100, k at level 200).
Notation "'run' m ; k" := (bind m (fun _ => k))
  (at level 10, m at level 100, k at level 200).

(** ** The telemetry emitter ([index.ts], lines 104-134) *)

(** [h || ''] for a header read with [headers.get]. *)
Definition orEmpty (h : option string) : string :=
  match h with Some s => s | None => "" end.

Record CfInfo : Type := mkCfInfo { country : string; region : string; asn : string }.

Definition extractCfInfo (req : Request) : CfInfo :=
  let cf := if JS.truthy (req_cf req) then req_cf req else VObj [] in
  let country := match JS.getProp cf "country" with VStr s => s | _ => "ZZ" end in
  let region := match JS.getProp cf "region" with VStr s => s | _ => "" end in
  let asn := if JS.notNullish (JS.getProp cf "asn")
             then JS.toString (JS.getProp cf "asn") else "0" in
  mkCfInfo country region asn.

Definition drawUUID (w : World) : M string :=
  fun st => (Ret (randomUUID w (draws st)),
             mkState (kv st) (S (draws st)) (trace st)).

(** The call of [writeDataPoint] and the promise made of its result:
    [None] for a promise that fulfils, [Some e] for one that rejects. *)
Definition writeDataPoint (w : World) (dp : DataPoint) : M (option JSError) :=
  run emit (WriteDataPoint dp);
  match sink w dp with
  | SinkAccepts => ret None
  | SinkThrows e => throw e
  | SinkRejects e => ret (Some e)
  end.

(** [.catch(err => console.error(...))]: the promise with the logging
    handler attached. *)
Definition catchRejection (p : option JSError) : Background :=
  match p with
  | None => Settles
  | Some e => LogsRejection "AE writeDataPoint failed:" e
  end.

Definition logPhpAttempt (w : World) (req : Request) (pathname : string) : M unit :=
  tryCatch
    (let info := extractCfInfo req in
     let uaHeader := orEmpty (req_userAgent req) in
     let ua := JS.slice0 140 uaHeader in
     do id <- drawUUID w;
     do p <- writeDataPoint w
               (mkDataPoint [pathname; country info; region info; ua; asn info]
                            [1] [id]);
     emit (WaitUntil (catchRejection p)))
    (fun err => emit (ConsoleError "Failed to log .php attempt:" err)).

(** ** The cached query gateway ([index.ts], lines 136-219) *)

Definition sqlLast : string := "
			  SELECT
			    timestamp,
			    blob1 AS path,
			    blob2 AS country,
			    blob3 AS region,
			    blob4 AS ua,
			    blob5 AS asn
			  FROM PHP_LOG
			  WHERE timestamp >= NOW() - INTERVAL '1' DAY
			  ORDER BY timestamp DESC
			  LIMIT 20
			".

Definition sqlTop : string := "
        SELECT
          blob1 AS path,
          count() AS hits
        FROM PHP_LOG
        WHERE timestamp >= NOW() - INTERVAL '1' MONTH
				GROUP BY path
        ORDER BY hits DESC
        LIMIT 20
      ".

(** The [switch (pathname)]: the query of a supported path, [None] for the
    [default] branch. *)
Definition selectSql (pathname : string) : option string :=
  if String.eqb pathname "/_php_log_last" then Some sqlLast
  else if String.eqb pathname "/_php_log" || String.eqb pathname "/_php_log_top"
       then Some sqlTop
       else None.

Definition CACHE_TTL_SECONDS : Z := 60.

(** The line feed that ends the plain-text bodies. *)
Definition newline : string := String "010"%char EmptyString.

Definition textPlain : option string := Some "text/plain;charset=UTF-8".
Definition applicationJson : option string := Some "application/json; charset=utf-8".

(** [new Response(text, { status })]: a text body gets the default
    content type of the Fetch standard. *)
Definition textResponse (st : Z) (text : string) : Response :=
  mkResponse st (BodyText text) textPlain None.

(** [JSON.stringify(v)], which is [undefined] on [undefined]. *)
Definition stringify (v : JSValue) : option KvText :=
  match v with VUndefined => None | _ => Some (JsonText v) end.

(** [new Response(JSON.stringify(v, null, 2), { headers })] *)
Definition jsonResponse (v : JSValue) (cacheStatus : string) : Response :=
  mkResponse 200
             (match v with VUndefined => BodyNone | _ => BodyJson v end)
             applicationJson (Some cacheStatus).

(** [PHP_LOG_KV.get(key, { type: 'json' })]: [null] for an absent key. *)
Definition kvGet (key : string) : M JSValue :=
  run emit (KvGet key);
  fun st => match kv st !! key with
            | None => (Ret VNull, st)
            | Some (JsonText v, _) => (Ret v, st)
            | Some (UndefinedText, _) =>
                (Throw (mkError "SyntaxError" "Unexpected token u in JSON"), st)
            end.

Definition kvStore (key : string) (text : KvText) (ttl : Z) : M unit :=
  run emit (KvPut key text ttl);
  fun st => (Ret tt, mkState (<[key := (text, ttl)]> (kv st)) (draws st) (trace st)).

(** [PHP_LOG_KV.put(key, text, { expirationTtl: ttl })] *)
Definition kvPut (w : World) (key : string) (text : option KvText) (ttl : Z) : M unit :=
  match text with
  | Some t => kvStore key t ttl
  | None => match kvPutUndefined w with
            | Some e => throw e
            | None => kvStore key UndefinedText ttl
            end
  end.

Definition apiUrl (accountId : string) : string :=
  "https://api.cloudflare.com/client/v4/accounts/" +:+ accountId
  +:+ "/analytics_engine/sql".

Definition apiCall (accountId apiToken sql : string) : ApiCall :=
  mkApiCall "POST" (apiUrl accountId) ("Bearer " +:+ apiToken) "text/plain" sql.

Definition callApi (w : World) (call : ApiCall) : M ApiReply :=
  run emit (ApiFetch call);
  lift (apiFetch w call).

(** [await response.text().catch(() => '')] *)
Definition textOrEmpty (r : ApiReply) : string :=
  match reply_text r with Some t => t | None => "" end.

(** [result.data], which throws on [null] and [undefined]. *)
Definition readData (result : JSValue) : Exc JSValue :=
  match result with
  | VNull =>
      Throw (mkError "TypeError" "Cannot read properties of null (reading 'data')")
  | VUndefined =>
      Throw (mkError "TypeError"
                     "Cannot read properties of undefined (reading 'data')")
  | _ => Ret (JS.getProp result "data")
  end.

(** Lines 181-218: the cache check and, on a miss, the query. The [None]
    result is the fall-through of [if (sql !== '')]. *)
Definition gateway (w : World) (pathname sql : string) : M (option Response) :=
  if String.eqb sql "" then ret None
  else
    do cachedResponse <- kvGet pathname;
    if JS.truthy cachedResponse then ret (Some (jsonResponse cachedResponse "HIT"))
    else
      tryCatch
        (do response <- callApi w (apiCall (ACCOUNT_ID w) (ANALYTICS_API_TOKEN w) sql);
         if negb (reply_ok response) then
           throw (mkError "Error"
                    ("AE API: " +:+ JS.decimal (reply_status response) +:+ ": "
                     +:+ textOrEmpty response))
         else
           do result <- lift (reply_json response);
           do data <- lift (readData result);
           run kvPut w pathname (stringify data) CACHE_TTL_SECONDS;
           ret (Some (jsonResponse data "MISS")))
        (fun err => ret (Some (textResponse 500 (errorToString err +:+ newline)))).

Definition bearerPrefix : string := "Bearer ".

(** Lines 139-140: the token read from the authorization header. *)
Definition bearerToken (authorization : option string) : string :=
  let authHeader := orEmpty authorization in
  if JS.startsWith bearerPrefix authHeader then JS.sliceFrom 7 authHeader else "".

(** Lines 137-144: [true] when the handler answers 401. *)
Definition rejected (w : World) (req : Request) : bool :=
  if negb (String.eqb (QUERY_TOKEN w) "")
  then negb (String.eqb (bearerToken (req_authorization req)) (QUERY_TOKEN w))
  else false.

(** Lines 221-227: forwarding by host name. *)
Definition forward (w : World) (req : Request) : M Response :=
  if String.eqb (req_hostname req) "<YOUR_OTHER_WORKER_DOMAIN>"
  then (run emit ServiceFetch; lift (serviceFetch w req))
  else (run emit OriginFetch; lift (originFetch w req)).

(** Lines 146-219: the reporting path of an admitted request. *)
Definition dispatch (w : World) (req : Request) (pathname : string) : M Response :=
  match selectSql pathname with
  | None => ret (textResponse 404 ("API not found" +:+ newline))
  | Some sql =>
      do r <- gateway w pathname sql;
      match r with
      | Some resp => ret resp
      | None => forward w req
      end
  end.

(** [url.pathname || '/'] *)
Definition pathnameOf (req : Request) : string :=
  if String.eqb (req_pathname req) "" then "/" else req_pathname req.

(** Lines 136-227: the handler after the telemetry block. *)
Definition route (w : World) (req : Request) : M Response :=
  let pathname := pathnameOf req in
  if isAPIPath pathname then
    if rejected w req then ret (textResponse 401 ("Unauthorized" +:+ newline))
    else dispatch w req pathname
  else forward w req.

(** The handler. *)
Definition fetch (w : World) (req : Request) : M Response :=
  let pathname := pathnameOf req in
  run (if isPhpPath pathname then logPhpAttempt w req pathname else ret tt);
  route w req.

(** ** The analytics client ([analyticsClient.ts]) *)

Record AEQueryResult : Type := mkResult { count : nat; items : list JSValue }.

(** [Array.isArray(v) && v.every(p)]: the elements, when the test passes. *)
Definition arrayWhere (p : JSValue -> bool) (v : JSValue) : option (list JSValue) :=
  match v with
  | VArr l => if forallb p l then Some l else None
  | _ => None
  end.

(** [c && typeof c.name === 'string'] *)
Definition hasName (c : JSValue) : bool :=
  JS.truthy c && JS.typeofString (JS.getProp c "name").

Definition extractCols (body : JSValue) : list string :=
  if negb (JS.truthy body) || negb (JS.typeofObject body) then []
  else
    let schemaCols :=
      JS.optChain (JS.optChain (JS.optChain body "meta") "schema") "columns" in
    match arrayWhere hasName schemaCols with
    | Some cs => map (fun c => JS.toString (JS.getProp c "name")) cs
    | None =>
        let metaCols := JS.optChain (JS.optChain body "meta") "columns" in
        match arrayWhere JS.typeofString metaCols with
        | Some cs => map JS.toString cs
        | None =>
            match arrayWhere JS.typeofString (JS.optChain body "columns") with
            | Some cs => map JS.toString cs
            | None => []
            end
        end
    end.

Definition extractRows (body : JSValue) : list JSValue :=
  if negb (JS.truthy body) || negb (JS.typeofObject body) then []
  else
    match JS.getProp body "data" with
    | VArr l => l
    | _ =>
        match JS.getProp body "rows" with
        | VArr l => l
        | _ =>
            match JS.getProp body "result" with
            | VArr l => l
            | _ =>
                match JS.getProp body "items" with
                | VArr l => l
                | _ => []
                end
            end
        end
    end.

Definition cannotRead (what : string) (i : nat) : JSError :=
  mkError "TypeError"
          ("Cannot read properties of " +:+ what +:+ " (reading '"
           +:+ JS.decimal (Z.of_nat i) +:+ "')").

(** [rowArr[i]] for an index [i]: an element of an array, the property
    named by the digits of [i] of an object, a character of a string,
    [undefined] on a number or a boolean, a [TypeError] on [null] and
    [undefined]. *)
Definition indexValue (rowArr : JSValue) (i : nat) : Exc JSValue :=
  match rowArr with
  | VUndefined => Throw (cannotRead "undefined" i)
  | VNull => Throw (cannotRead "null" i)
  | VArr l => Ret (nth i l VUndefined)
  | VObj props => Ret (JS.lookupProp (JS.decimal (Z.of_nat i)) props)
  | VStr s => Ret (match String.get i s with
                   | Some c => VStr (String c EmptyString)
                   | None => VUndefined
                   end)
  | VBool _ | VNum _ => Ret VUndefined
  end.

(** The loop [for (let i = 0; i < cols.length; i++) obj[cols[i]] = rowArr[i]],
    entered at index [i] with the columns still to visit, the object built
    so far and the flag of [JS.setProp]. *)
Fixpoint fillObject (cols : list string) (i : nat) (rowArr : JSValue)
         (detached : bool) (obj : list (string * JSValue))
  : Exc (list (string * JSValue)) :=
  match cols with
  | [] => Ret obj
  | c :: rest =>
      match indexValue rowArr i with
      | Ret v =>
          let '(detached', obj') := JS.setProp detached obj c v in
          fillObject rest (S i) rowArr detached' obj'
      | Throw e => Throw e
      end
  end.

(** The callback of [rows.map]. *)
Definition rowToObject (cols : list string) (rowArr : JSValue) : Exc JSValue :=
  match fillObject cols 0 rowArr false [] with
  | Ret obj => Ret (VObj obj)
  | Throw e => Throw e
  end.

(** [rows.map(f)] for a callback that may throw. *)
Fixpoint mapRows (f : JSValue -> Exc JSValue) (rows : list JSValue)
  : Exc (list JSValue) :=
  match rows with
  | [] => Ret []
  | r :: rest =>
      match f r with
      | Throw e => Throw e
      | Ret o =>
          match mapRows f rest with
          | Ret os => Ret (o :: os)
          | Throw e => Throw e
          end
      end
  end.

(** Lines 64-86: from the parsed body to the result. *)
Definition normalize (body : JSValue) : Exc AEQueryResult :=
  let cols := extractCols body in
  let rows := extractRows body in
  let items :=
    if (0 <? length cols)%nat && (0 <? length rows)%nat
       && JS.isArray (nth 0 rows VUndefined)
    then mapRows (rowToObject cols) rows
    else if (0 <? length rows)%nat && JS.typeofObject (nth 0 rows VUndefined)
         then Ret rows
         else Ret rows in
  match items with
  | Ret its => Ret (mkResult (length its) its)
  | Throw e => Throw e
  end.

Definition queryAnalyticsEngine (w : World) (accountId apiToken sql : string)
  : M AEQueryResult :=
  do res <- callApi w (apiCall accountId apiToken sql);
  if negb (reply_ok res) then
    throw (mkError "Error"
             ("Analytics API error " +:+ JS.decimal (reply_status res) +:+ ": "
              +:+ textOrEmpty res))
  else
    let body := match reply_json res with
                | Ret v => v
                | Throw _ => VObj []
                end in
    lift (normalize body).

(** ** What a trace contains *)


Definition upstreamQueries (t : list Effect) : list ApiCall :=
  omap (fun e => match e with ApiFetch c => Some c | _ => None end) t.

Definition cacheWrites (t : list Effect) : list (string * KvText * Z) :=
  omap (fun e => match e with KvPut k v ttl => Some (k, v, ttl) | _ => None end) t.


(** ** The earlier handler ([index.ts], first version, lines 4-85)

    It logs the ASN as the index of the event, and serves one reporting
    path, [/_php_log], guarded by the [x-admin-token] header, through the
    analytics client and without a cache. *)

Record EnvV1 : Type := mkEnvV1 {
  v1_world : World;             (* the bindings shared with the later handler *)
  ADMIN_TOKEN : string
}.

Record RequestV1 : Type := mkRequestV1 {
  v1_request : Request;
  req_adminToken : option string          (* headers.get("x-admin-token") *)
}.

(** Lines 24-45. *)
Definition logPhpAttemptV1 (w : World) (req : Request) (pathname : string) : M unit :=
  tryCatch
    (let info := extractCfInfo req in
     let uaHeader := orEmpty (req_userAgent req) in
     let ua := JS.slice0 140 uaHeader in
     do p <- writeDataPoint w
               (mkDataPoint [pathname; country info; region info; ua] []
                            [asn info]);
     emit (WaitUntil (catchRejection p)))
    (fun err => emit (ConsoleError "Failed to log .php attempt:" err)).

Definition sqlV1 : string := "
        SELECT
          timestamp,
					index1 AS asn,
          blob1 AS path,
          blob2 AS country,
          blob3 AS region,
          blob4 AS ua
        FROM PHP_LOG
        WHERE timestamp >= NOW() - INTERVAL '1' DAY
        ORDER BY timestamp DESC
        LIMIT 20
      ".

(** [{ count: result.count, items: result.items }] *)
Definition resultObject (r : AEQueryResult) : JSValue :=
  VObj [("count", VNum (Z.of_nat (count r))); ("items", VArr (items r))].

(** Lines 47-75: the reporting path of the earlier handler, after the
    test of the path. *)
Definition adminEndpoint (env : EnvV1) (r : RequestV1) : M Response :=
  let w := v1_world env in
  let headerToken := orEmpty (req_adminToken r) in
  if negb (String.eqb headerToken (ADMIN_TOKEN env))
  then ret (textResponse 401 "Unauthorized")
  else
    tryCatch
      (do result <- queryAnalyticsEngine w (ACCOUNT_ID w) (ANALYTICS_API_TOKEN w)
                                         sqlV1;
       ret (mkResponse 200 (BodyJson (resultObject result)) applicationJson None))
      (fun err => ret (textResponse 500 ("AE query failed: " +:+ errorToString err))).

(** Lines 5-84. *)
Definition fetchV1 (env : EnvV1) (r : RequestV1) : M Response :=
  let w := v1_world env in
  let req := v1_request r in
  let pathname := pathnameOf req in
  run (if isPhpPath pathname then logPhpAttemptV1 w req pathname else ret tt);
  if String.eqb (req_pathname req) "/_php_log" then adminEndpoint env r
  else forward w req.

(** ** The classifier as the specification words it *)

Definition lowerChar (c : ascii) : ascii :=
  let n := nat_of_ascii c in
  if ((65 <=? n)%nat && (n <=? 90)%nat)%bool then ascii_of_nat (n + 32) else c.

Fixpoint lower (s : string) : string :=
  match s with
  | EmptyString => EmptyString
  | String c s' => String (lowerChar c) (lower s')
  end.

(** What may follow the extension: the end of the string, [/] or [?]. *)
Definition endsSegment (suf : string) : Prop :=
  suf = "" \/ exists t, suf = String "/" t \/ suf = String "?" t.

(** [p] contains [.php], in any letter case, followed by the end of the
    string, [/] or [?]. *)
Definition containsPhpSegment (p : string) : Prop :=
  exists pre ext suf,
    p = pre +:+ ext +:+ suf /\ lower ext = ".php" /\ endsSegment suf.

(** ** The gateway as the specification words it *)

(** The request is let through: no token is configured, or the
    authorization header is [Bearer ] followed by the configured token. *)
Definition admitted (w : World) (req : Request) : Prop :=
  QUERY_TOKEN w = ""
  \/ req_authorization req = Some ("Bearer " +:+ QUERY_TOKEN w).

(** The three supported reporting paths. *)
Definition supported (pathname : string) : Prop :=
  pathname = "/_php_log_last" \/ pathname = "/_php_log" \/ pathname = "/_php_log_top".

(** [needle] occurs in [hay]. *)
Fixpoint occursIn (needle hay : string) : bool :=
  String.prefix needle hay
  || match hay with
     | EmptyString => false
     | String _ rest => occursIn needle rest
     end.

(** The cache holds a usable entry for the key: a JSON value that is truthy
    (anything but [null], [false], [0] and the empty string). *)
Definition cacheHit (st : State) (key : string) (v : JSValue) : Prop :=
  exists ttl, kv st !! key = Some (JsonText v, ttl) /\ JS.truthy v = true.

(** The cache has nothing usable for the key: no entry, or a JSON value
    that is falsy. *)
Definition cacheMiss (st : State) (key : string) : Prop :=
  kv st !! key = None
  \/ exists v ttl, kv st !! key = Some (JsonText v, ttl) /\ JS.truthy v = false.

(** The reporting path answered from the cache or by the query [sql]. *)
Definition answerQuery (w : World) (req : Request) (sql : string) : M Response :=
  do r <- gateway w (pathnameOf req) sql;
  match r with
  | Some resp => ret resp
  | None => forward w req
  end.

(** The handler goes on to the dispatch on the path, as seen from outside:
    the answer is never 401, an unsupported path is answered 404, and for
    a supported path the handler looks the path up in the cache. *)
Definition proceedsToRouting (w : World) (req : Request) (st : State) : Prop :=
  (forall resp, (fetch w req st).1 = Ret resp -> status resp <> 401)
  /\ (~ supported (pathnameOf req) ->
      (fetch w req st).1 = Ret (textResponse 404 ("API not found" +:+ newline)))
  /\ (supported (pathnameOf req) ->
      KvGet (pathnameOf req)
      ∈ drop (length (trace st)) (trace (fetch w req st).2)).

(** The state after the handler made the calls [t] and left the store [m]. *)
Definition after (st : State) (m : gmap string (KvText * Z)) (t : list Effect)
  : State :=
  mkState m (draws st) (trace st ++ t).

(** ** The access event as the specification words it *)

(** A field of the edge metadata, [undefined] when it is missing. *)
Definition cfField (req : Request) (name : string) : JSValue :=
  JS.getProp (req_cf req) name.

Definition countryOf (req : Request) : string :=
  match cfField req "country" with VStr s => s | _ => "ZZ" end.

Definition regionOf (req : Request) : string :=
  match cfField req "region" with VStr s => s | _ => "" end.

(** The ASN: ["0"] when the field is missing ([undefined] or [null]), the
    string conversion of the field otherwise. *)
Definition asnOf (req : Request) : string :=
  match cfField req "asn" with
  | VUndefined | VNull => "0"
  | v => JS.toString v
  end.

(** The record that a flagged request submits. *)
Definition accessEvent (w : World) (req : Request) (st : State) : DataPoint :=
  mkDataPoint
    [pathnameOf req; countryOf req; regionOf req;
     JS.slice0 140 (orEmpty (req_userAgent req)); asnOf req]
    [1]
    [randomUUID w (draws st)].

(** ** Properties of computations *)

(** The result and the store after [m] depend on the store alone. *)
Definition kvOnly {A} (m : M A) : Prop :=
  forall st st', kv st = kv st' ->
    (m st).1 = (m st').1 /\ kv (m st).2 = kv (m st').2.

(** [m] draws no identifier and only adds effects accepted by [ok] to the
    trace. *)
Definition emitsOnly {A} (ok : Effect -> bool) (m : M A) : Prop :=
  forall st, exists t,
    trace (m st).2 = trace st ++ t /\ forallb ok t = true
    /\ draws (m st).2 = draws st.

Definition notSubmission (e : Effect) : bool :=
  match e with WriteDataPoint _ => false | _ => true end.

(** ** Sample worlds, requests and stores *)

Definition originResponse : Response :=
  mkResponse 200 (BodyText "origin") textPlain None.

(** A world with the given reporting token and analytics endpoint, a sink
    that accepts, and an origin that answers. *)
Definition sampleWorld (token : string) (api : ApiCall -> Exc ApiReply) : World :=
  mkWorld token "acct" "api-token" (fun _ => SinkAccepts) (fun _ => "uuid-0") api
          None (fun _ => Ret originResponse) (fun _ => Ret originResponse).

Definition sampleRequest (pathname : string) (authorization : option string)
  : Request :=
  mkRequest "example.com" pathname None authorization VUndefined.

Definition emptyState : State := mkState ∅ 0 [].

Definition apiDown : ApiCall -> Exc ApiReply :=
  fun _ => Throw (mkError "TypeError" "fetch failed").

(** An endpoint that answers every query with the given status and
    parsed body. *)
Definition apiAnswers (code : Z) (text : string) (json : Exc JSValue)
  : ApiCall -> Exc ApiReply :=
  fun _ => Ret (mkApiReply code (Some text) json).

(** ** The normalizer as the specification words it *)

(** A row of a matrix zipped against the column names: one property per
    column, in column order, [undefined] where the row is too short. *)
Definition zipRow (cols : list string) (row : list JSValue) : JSValue :=
  VObj (imap (fun j c => (c, nth j row VUndefined)) cols).

(** The body on which the normalizer fails: a column list, a first row that
    is an array and a second row that is [null]. *)
Definition nullRowBody : JSValue :=
  VObj [("columns", VArr [VStr "a"]);
        ("data", VArr [VArr [VNum 1]; VNull])].

(** ** Further notions used to state properties of the handlers *)

(** [p] begins with the reporting prefix, in any letter case. *)
Definition hasReportingPrefix (p : string) : Prop :=
  exists pre rest, p = pre +:+ rest /\ lower pre = "/_php_log".

(** What the forwarding destination of a request answers: the service
    binding for the one host name, the origin for every other. *)
Definition destination (w : World) (req : Request) : Exc Response :=
  if String.eqb (req_hostname req) "<YOUR_OTHER_WORKER_DOMAIN>"
  then serviceFetch w req else originFetch w req.

Definition forwardEffect (req : Request) : Effect :=
  if String.eqb (req_hostname req) "<YOUR_OTHER_WORKER_DOMAIN>"
  then ServiceFetch else OriginFetch.

(** Calls to the cache and to the analytics endpoint. *)
Definition isCacheOrApi (e : Effect) : bool :=
  match e with
  | KvGet _ | KvPut _ _ _ | ApiFetch _ => true
  | _ => false
  end.

(** Calls that forward the request. *)
Definition isForward (e : Effect) : bool :=
  match e with
  | OriginFetch | ServiceFetch => true
  | _ => false
  end.


(** Effects of the part of the handler that follows the telemetry block. *)
Definition isRouting (e : Effect) : bool := isCacheOrApi e || isForward e.

(** The text under the key, if any, is the serialisation of a JSON value. *)
Definition readable (st : State) (key : string) : Prop :=
  forall ttl, kv st !! key <> Some (UndefinedText, ttl).

(** What a run of the gateway can be: a failed read of the cache, an answer
    that leaves the store alone (a hit, or a 500), or a miss that stores
    the data and answers with it. *)
Definition gatewayOutcome (pathname : string) (st : State)
           (out : Exc (option Response) * State) : Prop :=
  exists t,
    trace out.2 = trace st ++ t /\ draws out.2 = draws st
    /\ (((exists ttl, kv st !! pathname = Some (UndefinedText, ttl))
         /\ (exists e, out.1 = Throw e)
         /\ kv out.2 = kv st /\ cacheWrites t = [])
        \/ ((exists resp, out.1 = Ret (Some resp)
                          /\ (status resp = 200 /\ xCache resp = Some "HIT"
                              \/ status resp = 500))
            /\ kv out.2 = kv st /\ cacheWrites t = [])
        \/ (exists text data,
              out.1 = Ret (Some (jsonResponse data "MISS"))
              /\ kv out.2 = <[pathname := (text, 60)]> (kv st)
              /\ cacheWrites t = [(pathname, text, 60)])).

(** The index of the last occurrence of [k] in [cols], counted from [i]. *)
Fixpoint lastIndex (k : string) (cols : list string) (i : nat) : option nat :=
  match cols with
  | [] => None
  | c :: rest =>
      match lastIndex k rest (S i) with
      | Some j => Some j
      | None => if String.eqb k c then Some i else None
      end
  end.

(** The event that the earlier handler submits for a flagged request. *)
Definition accessEventV1 (req : Request) : DataPoint :=
  mkDataPoint
    [pathnameOf req; countryOf req; regionOf req;
     JS.slice0 140 (orEmpty (req_userAgent req))]
    []
    [asnOf req].

(** The query of the earlier handler, as a call of the helper. *)
Definition adminCall (env : EnvV1) : ApiCall :=
  apiCall (ACCOUNT_ID (v1_world env)) (ANALYTICS_API_TOKEN (v1_world env)) sqlV1.

(** The response of the earlier handler's reporting path for an outcome
    of the query helper. *)
Definition adminResponse (out : Exc AEQueryResult) : Response :=
  match out with
  | Ret result =>
      mkResponse 200 (BodyJson (resultObject result)) applicationJson None
  | Throw e =>
      mkResponse 500 (BodyText ("AE query failed: " +:+ errorToString e))
                 textPlain None
  end.

Definition sampleEnvV1 (token : string) (api : ApiCall -> Exc ApiReply) : EnvV1 :=
  mkEnvV1 (sampleWorld "" api) token.

Definition sampleRequestV1 (pathname : string) (token : option string) : RequestV1 :=
  mkRequestV1 (sampleRequest pathname None) token.



(** The first worked example of the specification, as a parsed body. *)
Definition matrixBody : JSValue :=
  VObj [("meta", VObj [("columns", VArr [VStr "a"; VStr "b"])]);
        ("data", VArr [VArr [VNum 1; VNum 2]; VArr [VNum 3; VNum 4]])].
(** * Properties *)

(** ** The monad's operators preserve the two properties of computations *)

Section Frame.
Context {A B : Type}.

Lemma kvOnly_ret (a : A) : kvOnly (ret a).
Proof. intros st st' H. done. Qed.

Lemma kvOnly_throw (e : JSError) : kvOnly (@throw A e).
Proof. intros st st' H. done. Qed.

Lemma kvOnly_lift (r : Exc A) : kvOnly (lift r).
Proof. intros st st' H. done. Qed.

Lemma kvOnly_bind (m : M A) (k : A -> M B) :
  kvOnly m -> (forall a, kvOnly (k a)) -> kvOnly (bind m k).
Proof.
  intros Hm Hk st st' H. unfold bind.
  destruct (Hm st st' H) as [H1 H2].
  destruct (m st) as [[a|e] s1], (m st') as [[a'|e'] s1']; cbn in *;
    try discriminate; simplify_eq; auto.
  by apply Hk.
Qed.

Lemma kvOnly_tryCatch (m : M A) (h : JSError -> M A) :
  kvOnly m -> (forall e, kvOnly (h e)) -> kvOnly (tryCatch m h).
Proof.
  intros Hm Hh st st' H. unfold tryCatch.
  destruct (Hm st st' H) as [H1 H2].
  destruct (m st) as [[a|e] s1], (m st') as [[a'|e'] s1']; cbn in *;
    try discriminate; simplify_eq; auto.
  by apply Hh.
Qed.

Lemma emitsOnly_ret ok (a : A) : emitsOnly ok (ret a).
Proof. intros st. exists []. by rewrite app_nil_r. Qed.

Lemma emitsOnly_throw ok (e : JSError) : emitsOnly ok (@throw A e).
Proof. intros st. exists []. by rewrite app_nil_r. Qed.

Lemma emitsOnly_lift ok (r : Exc A) : emitsOnly ok (lift r).
Proof. intros st. exists []. by rewrite app_nil_r. Qed.

Lemma emitsOnly_bind ok (m : M A) (k : A -> M B) :
  emitsOnly ok m -> (forall a, emitsOnly ok (k a)) -> emitsOnly ok (bind m k).
Proof.
  intros Hm Hk st. unfold bind.
  destruct (Hm st) as (t1 & H1 & H2 & H3).
  destruct (m st) as [[a|e] s1]; cbn in *.
  - destruct (Hk a s1) as (t2 & H4 & H5 & H6).
    exists (t1 ++ t2). rewrite H4, H1, forallb_app, H2, H5, H6, H3.
    by rewrite app_assoc.
  - by exists t1.
Qed.

Lemma emitsOnly_tryCatch ok (m : M A) (h : JSError -> M A) :
  emitsOnly ok m -> (forall e, emitsOnly ok (h e)) -> emitsOnly ok (tryCatch m h).
Proof.
  intros Hm Hh st. unfold tryCatch.
  destruct (Hm st) as (t1 & H1 & H2 & H3).
  destruct (m st) as [[a|e] s1]; cbn in *.
  - by exists t1.
  - destruct (Hh e s1) as (t2 & H4 & H5 & H6).
    exists (t1 ++ t2). rewrite H4, H1, forallb_app, H2, H5, H6, H3.
    by rewrite app_assoc.
Qed.
End Frame.

Lemma kvOnly_emit (e : Effect) : kvOnly (emit e).
Proof. intros st st' H. done. Qed.

Lemma emitsOnly_emit (ok : Effect -> bool) (e : Effect) :
  ok e = true -> emitsOnly ok (emit e).
Proof. intros H st. exists [e]. cbn. by rewrite H. Qed.

Lemma kvOnly_kvGet (key : string) : kvOnly (kvGet key).
Proof.
  intros st st' H. unfold kvGet, bind, emit. cbn. rewrite H.
  destruct (kv st' !! key) as [[[v|] ttl]|]; done.
Qed.

Lemma kvOnly_kvPut (w : World) (key : string) (text : option KvText) (ttl : Z) :
  kvOnly (kvPut w key text ttl).
Proof.
  intros st st' H. unfold kvPut, kvStore, bind, emit, throw.
  destruct text; [|destruct (kvPutUndefined w)]; cbn; by rewrite ?H.
Qed.

Create HintDb frame.
#[local] Hint Resolve kvOnly_ret kvOnly_throw kvOnly_lift kvOnly_emit
  kvOnly_kvGet kvOnly_kvPut : frame.
#[local] Hint Resolve emitsOnly_ret emitsOnly_throw emitsOnly_lift : frame.

(** Splits a computation along its operators and its case distinctions,
    and closes the leaves from the hint database. *)
Ltac frame_step :=
  match goal with
  | |- kvOnly (bind _ _) => apply kvOnly_bind; [|intros ?]
  | |- kvOnly (tryCatch _ _) => apply kvOnly_tryCatch; [|intros ?]
  | |- emitsOnly _ (bind _ _) => apply emitsOnly_bind; [|intros ?]
  | |- emitsOnly _ (tryCatch _ _) => apply emitsOnly_tryCatch; [|intros ?]
  | |- emitsOnly _ (emit _) => apply emitsOnly_emit; reflexivity
  | |- context [match ?x with _ => _ end] => destruct x
  | |- _ => solve [auto with frame]
  end.
Ltac frame := repeat frame_step.

Lemma kvOnly_gateway (w : World) (pathname sql : string) :
  kvOnly (gateway w pathname sql).
Proof. unfold gateway, callApi. frame. Qed.

Lemma kvOnly_forward (w : World) (req : Request) : kvOnly (forward w req).
Proof. unfold forward. frame. Qed.

Lemma kvOnly_route (w : World) (req : Request) : kvOnly (route w req).
Proof.
  pose proof (kvOnly_gateway w) as Hg. pose proof (kvOnly_forward w req) as Hf.
  unfold route, dispatch. frame.
Qed.

Lemma emitsOnly_kvGet (key : string) : emitsOnly notSubmission (kvGet key).
Proof.
  intros st. exists [KvGet key]. unfold kvGet, bind, emit. cbn.
  destruct (kv st !! key) as [[[v|] ttl]|]; done.
Qed.

Lemma emitsOnly_kvPut (w : World) (key : string) (text : option KvText) (ttl : Z) :
  emitsOnly notSubmission (kvPut w key text ttl).
Proof.
  intros st. unfold kvPut, kvStore, bind, emit, throw.
  destruct text as [t|]; [exists [KvPut key t ttl]; done|].
  destruct (kvPutUndefined w); [exists []|exists [KvPut key UndefinedText ttl]];
    cbn; by rewrite ?app_nil_r.
Qed.

#[local] Hint Resolve emitsOnly_kvGet emitsOnly_kvPut : frame.





Lemma lower_canon (a : ascii) : lowerChar (Regex.canon a) = lowerChar a.
Proof. destruct a as [[] [] [] [] [] [] [] []]; reflexivity. Qed.

Lemma canon_lower (a : ascii) : Regex.canon (lowerChar a) = Regex.canon a.
Proof. destruct a as [[] [] [] [] [] [] [] []]; reflexivity. Qed.

Lemma chEq_ci_lower (a c : ascii) :
  Regex.chEq true a c = true <-> lowerChar a = lowerChar c.
Proof.
  unfold Regex.chEq. rewrite Ascii.eqb_eq. split; intros H.
  - rewrite <- (lower_canon a), <- (lower_canon c). by rewrite H.
  - rewrite <- (canon_lower a), <- (canon_lower c). by rewrite H.
Qed.

Lemma chEq_ci_slash (a : ascii) :
  existsb (Regex.chEq true a) ["/"%char; "?"%char] = true
  <-> a = "/"%char \/ a = "?"%char.
Proof.
  destruct a as [[] [] [] [] [] [] [] []]; vm_compute;
    split; intros H; try discriminate; try (destruct H; discriminate); auto.
Qed.

Lemma match_php_here (pos : nat) (s : string) :
  Regex.rmatch true phpPattern pos s (fun _ _ => true) = true
  <-> exists ext suf, s = ext +:+ suf /\ lower ext = ".php" /\ endsSegment suf.
Proof.
  split.
  - intros H.
    unfold phpPattern in H.
    destruct s as [|a [|b [|c [|d t]]]]; cbn -[Regex.chEq existsb] in H;
      repeat (match type of H with
              | context [if Regex.chEq true ?x ?y then _ else _] =>
                  destruct (Regex.chEq true x y) eqn:?
              end; try discriminate); try discriminate.
    exists (String a (String b (String c (String d "")))), t.
    repeat match goal with
           | E : Regex.chEq true _ _ = true |- _ => apply chEq_ci_lower in E
           end.
    split; [reflexivity|]. split.
    + cbn [lower].
      by repeat match goal with
                | E : lowerChar _ = lowerChar _ |- _ => rewrite E; clear E
                end.
    + apply orb_true_iff in H as [H|H].
      * destruct t; [by left | discriminate].
      * destruct t as [|e t]; [discriminate|].
        destruct (existsb (Regex.chEq true e) ["/"%char; "?"%char]) eqn:E;
          [|discriminate].
        apply chEq_ci_slash in E. right. exists t. destruct E; subst; auto.
  - intros (ext & suf & -> & Hl & Hs).
    destruct ext as [|a [|b [|c [|d [|? ?]]]]]; cbn in Hl; try discriminate.
    injection Hl as Ha Hb Hc Hd.
    change (String a (String b (String c (String d ""))) +:+ suf)
      with (String a (String b (String c (String d suf)))).
    unfold phpPattern. cbn -[Regex.chEq existsb].
    rewrite (proj2 (chEq_ci_lower a "."%char) Ha).
    rewrite (proj2 (chEq_ci_lower b "p"%char) Hb).
    rewrite (proj2 (chEq_ci_lower c "h"%char) Hc).
    rewrite (proj2 (chEq_ci_lower d "p"%char) Hd).
    destruct Hs as [->|[t [->| ->]]]; reflexivity.
Qed.

Lemma search_php (pos : nat) (s : string) :
  Regex.search true phpPattern pos s = true <-> containsPhpSegment s.
Proof.
  revert pos. induction s as [|a s IH]; intros pos.
  - cbn [Regex.search]. rewrite orb_false_r, match_php_here. split.
    + intros (ext & suf & H). by exists "", ext, suf.
    + intros (pre & ext & suf & H & Hl & Hs). exists ext, suf.
      destruct pre; [done|discriminate].
  - cbn [Regex.search]. rewrite orb_true_iff, match_php_here, IH. split.
    + intros [(ext & suf & H)|(pre & ext & suf & -> & H)].
      * by exists "", ext, suf.
      * by exists (String a pre), ext, suf.
    + intros (pre & ext & suf & H & Hl).
      destruct pre as [|a' pre].
      * left. by exists ext, suf.
      * right. injection H as -> ->. by exists pre, ext, suf.
Qed.

(** C3. [isPhpPath] is a total function that holds exactly of the paths
    containing [.php], in any letter case, followed by the end of the path,
    [/] or [?]; it holds of [/admin.php], [/a.php], [/x.php/y], [/a.php/b],
    [/x.php?a=1] and [/a.php?x=1], and fails on [/aphp], [/phpfoo] and
    [/a.phps]. *)
Theorem isPhpPath_spec :
  (forall p : string, isPhpPath p = true <-> containsPhpSegment p)
  /\ (forall p : string, isPhpPath p = false <-> ~ containsPhpSegment p)
  /\ isPhpPath "/admin.php" = true /\ isPhpPath "/a.php" = true
  /\ isPhpPath "/x.php/y" = true /\ isPhpPath "/a.php/b" = true
  /\ isPhpPath "/x.php?a=1" = true /\ isPhpPath "/a.php?x=1" = true
  /\ isPhpPath "/aphp" = false /\ isPhpPath "/phpfoo" = false
  /\ isPhpPath "/a.phps" = false.
Proof.
  split; [|split].
  - intros p. apply search_php.
  - intros p. rewrite <- (search_php 0 p). fold (Regex.test true phpPattern p).
    fold (isPhpPath p). destruct (isPhpPath p); split; congruence.
  - repeat split; reflexivity.
Qed.

Example isPhpPath_letter_case :
  isPhpPath "/INDEX.PHP" = true /\ isPhpPath "/wp-login.PhP?x" = true
  /\ isPhpPath "/a.php5" = false /\ isPhpPath "" = false.
Proof. repeat split; reflexivity. Qed.

Example isAPIPath_prefix :
  isAPIPath "/_php_log" = true /\ isAPIPath "/_PHP_LOG_top" = true
  /\ isAPIPath "/x/_php_log" = false /\ isAPIPath "/_php_lo" = false.
Proof. repeat split; reflexivity. Qed.

(** ** The telemetry emitter *)

Lemma getProp_or_empty (cf : JSValue) (name : string) :
  JS.getProp (if JS.truthy cf then cf else VObj []) name = JS.getProp cf name.
Proof. by destruct cf as [| |[]|n|s|l|props]; cbn; try destruct (_ =? _); try destruct (String.eqb _ _). Qed.

Lemma extractCfInfo_fields (req : Request) :
  extractCfInfo req = mkCfInfo (countryOf req) (regionOf req) (asnOf req).
Proof.
  unfold extractCfInfo, countryOf, regionOf, asnOf, cfField.
  rewrite !getProp_or_empty.
  by destruct (JS.getProp (req_cf req) "asn").
Qed.




(** The block submits the event once, logs what the sink throws or rejects
    with, and returns. *)
Lemma logPhpAttempt_run (w : World) (req : Request) (st : State) :
  logPhpAttempt w req (pathnameOf req) st
  = (Ret tt,
     mkState (kv st) (S (draws st))
       (trace st ++ WriteDataPoint (accessEvent w req st)
          :: match sink w (accessEvent w req st) with
             | SinkAccepts => [WaitUntil Settles]
             | SinkThrows e => [ConsoleError "Failed to log .php attempt:" e]
             | SinkRejects e =>
                 [WaitUntil (LogsRejection "AE writeDataPoint failed:" e)]
             end)).
Proof.
  unfold logPhpAttempt, tryCatch, bind, drawUUID, writeDataPoint, catchRejection,
    emit, ret, throw.
  rewrite extractCfInfo_fields. cbn.
  fold (accessEvent w req st).
  destruct (sink w (accessEvent w req st)); cbn; by rewrite <- ?app_assoc.
Qed.

Lemma fetch_route (w : World) (req : Request) (st : State) :
  (fetch w req st).1 = (route w req st).1
  /\ kv (fetch w req st).2 = kv (route w req st).2.
Proof.
  unfold fetch, bind.
  destruct (isPhpPath (pathnameOf req)).
  - rewrite logPhpAttempt_run. by apply kvOnly_route.
  - done.
Qed.

Lemma fetch_unflagged (w : World) (req : Request) (st : State) :
  isPhpPath (pathnameOf req) = false -> fetch w req st = route w req st.
Proof. intros H. unfold fetch, bind. by rewrite H. Qed.

(** Whatever runs inside the [try] of the telemetry block, an error it
    throws is caught by the handler, which only logs it. *)
Lemma telemetry_catch_all (block : M unit) (st : State) :
  (tryCatch block
     (fun err => emit (ConsoleError "Failed to log .php attempt:" err)) st).1
  = Ret tt.
Proof. unfold tryCatch. by destruct (block st) as [[[]|e] st']. Qed.

(** C1. Whatever the sink does with the event (accept it, throw, or return
    a promise that rejects), the telemetry block returns normally, as it
    does for any error thrown inside its [try]; and the handler's outcome
    (the response with its status and body, or the failure of the
    forwarding destination) and the store it leaves are those of the
    handler without the telemetry block. *)
Theorem telemetry_never_alters_response
  (w : World) (behaviour : DataPoint -> SinkBehaviour) (req : Request) (st : State) :
  (logPhpAttempt (withSink w behaviour) req (pathnameOf req) st).1 = Ret tt
  /\ (forall block : M unit,
       (tryCatch block
          (fun err => emit (ConsoleError "Failed to log .php attempt:" err))
          st).1 = Ret tt)
  /\ (fetch (withSink w behaviour) req st).1 = (route w req st).1
  /\ kv (fetch (withSink w behaviour) req st).2 = kv (route w req st).2.
Proof.
  split; [by rewrite logPhpAttempt_run|].
  split; [intros block; apply telemetry_catch_all|].
  apply (fetch_route (withSink w behaviour) req st).
Qed.



(** ** Authorization of the reporting paths *)

Lemma append_cons (a : ascii) (p r : string) :
  String a p +:+ r = String a (p +:+ r).
Proof. reflexivity. Qed.

Lemma append_nil (r : string) : "" +:+ r = r.
Proof. reflexivity. Qed.

Lemma prefix_append (p r : string) : String.prefix p (p +:+ r) = true.
Proof.
  induction p as [|a p IH]; [by destruct r|].
  rewrite append_cons. cbn.
  destruct (Ascii.ascii_dec a a); [done|congruence].
Qed.

Lemma sliceFrom_append (p r : string) :
  JS.sliceFrom (String.length p) (p +:+ r) = r.
Proof.
  induction p as [|a p IH]; [by destruct r|]. by rewrite append_cons.
Qed.

Lemma prefix_split (p s : string) :
  String.prefix p s = true -> s = p +:+ JS.sliceFrom (String.length p) s.
Proof.
  revert s. induction p as [|a p IH]; intros s H.
  - by destruct s.
  - destruct s as [|b s]; cbn in H; [discriminate|].
    destruct (Ascii.ascii_dec a b) as [->|]; [|discriminate].
    rewrite append_cons. cbn. by rewrite <- (IH s H).
Qed.

Lemma bearerToken_prefixed (rest : string) :
  bearerToken (Some ("Bearer " +:+ rest)) = rest.
Proof.
  unfold bearerToken, JS.startsWith, bearerPrefix, orEmpty.
  rewrite prefix_append. apply (sliceFrom_append "Bearer " rest).
Qed.

Lemma bearerToken_other (authorization : option string) :
  JS.startsWith bearerPrefix (orEmpty authorization) = false ->
  bearerToken authorization = "".
Proof. unfold bearerToken. by intros ->. Qed.

Lemma bearerToken_nonempty (authorization : option string) :
  bearerToken authorization <> "" ->
  authorization = Some ("Bearer " +:+ bearerToken authorization).
Proof.
  unfold bearerToken, JS.startsWith, bearerPrefix.
  destruct (String.prefix "Bearer " (orEmpty authorization)) eqn:E; [|done].
  intros _. apply prefix_split in E.
  destruct authorization as [h|]; cbn in *; [|discriminate].
  by rewrite <- E.
Qed.

Lemma rejected_false (w : World) (req : Request) :
  rejected w req = false <-> admitted w req.
Proof.
  unfold rejected, admitted.
  destruct (String.eqb_spec (QUERY_TOKEN w) "") as [E|E]; cbn.
  - split; auto.
  - rewrite negb_false_iff, String.eqb_eq. split.
    + intros H. right. rewrite <- H. apply bearerToken_nonempty. congruence.
    + intros [H| ->]; [done|]. apply bearerToken_prefixed.
Qed.

Lemma rejected_true (w : World) (req : Request) :
  rejected w req = true <->
  QUERY_TOKEN w <> ""
  /\ req_authorization req <> Some ("Bearer " +:+ QUERY_TOKEN w).
Proof.
  rewrite <- not_false_iff_true, rejected_false. unfold admitted. split.
  - intros H. split; intros E; apply H; auto.
  - intros [H1 H2] [E|E]; auto.
Qed.

Lemma route_rejected (w : World) (req : Request) (st : State) :
  isAPIPath (pathnameOf req) = true -> rejected w req = true ->
  route w req st = (Ret (textResponse 401 ("Unauthorized" +:+ newline)), st).
Proof. intros H1 H2. unfold route. by rewrite H1, H2. Qed.

Lemma route_admitted (w : World) (req : Request) (st : State) :
  isAPIPath (pathnameOf req) = true -> admitted w req ->
  route w req st = dispatch w req (pathnameOf req) st.
Proof.
  intros H1 H2%rejected_false. unfold route. by rewrite H1, H2.
Qed.


(** ** The cached query gateway *)

Lemma selectSql_supported (pathname sql : string) :
  selectSql pathname = Some sql ->
  supported pathname /\ String.eqb sql "" = false
  /\ isPhpPath pathname = false /\ isAPIPath pathname = true.
Proof.
  unfold selectSql, supported.
  destruct (String.eqb_spec pathname "/_php_log_last") as [->|_];
    [intros [= <-]; by auto|].
  destruct (String.eqb_spec pathname "/_php_log") as [->|_];
    [intros [= <-]; by auto 6|].
  destruct (String.eqb_spec pathname "/_php_log_top") as [->|_];
    [intros [= <-]; by auto 6|done].
Qed.

Lemma selectSql_unsupported (pathname : string) :
  ~ supported pathname -> selectSql pathname = None.
Proof.
  unfold selectSql, supported. intros H.
  destruct (String.eqb_spec pathname "/_php_log_last"); [tauto|].
  destruct (String.eqb_spec pathname "/_php_log"); [tauto|].
  destruct (String.eqb_spec pathname "/_php_log_top"); [tauto|done].
Qed.

Lemma fetch_supported (w : World) (req : Request) (st : State) (sql : string) :
  admitted w req -> selectSql (pathnameOf req) = Some sql ->
  fetch w req st = answerQuery w req sql st.
Proof.
  intros Hadm Hsql.
  destruct (selectSql_supported _ _ Hsql) as (_ & _ & Hphp & Hapi).
  rewrite (fetch_unflagged w req st Hphp), (route_admitted w req st Hapi Hadm).
  unfold dispatch. by rewrite Hsql.
Qed.

Ltac run_gateway :=
  unfold gateway, kvGet, kvPut, kvStore, callApi, tryCatch, bind, emit, lift,
    ret, throw, after; cbn.

Lemma gateway_hit (w : World) (pathname sql : string) (st : State) (v : JSValue) :
  String.eqb sql "" = false -> cacheHit st pathname v ->
  gateway w pathname sql st
  = (Ret (Some (mkResponse 200 (BodyJson v) applicationJson (Some "HIT"))),
     after st (kv st) [KvGet pathname]).
Proof.
  intros Hsql (ttl & Hkv & Hv). run_gateway. rewrite Hsql, Hkv, Hv.
  unfold jsonResponse. by destruct v.
Qed.

(** On a miss the handler goes on to the query with the lookup recorded. *)
Lemma gateway_miss (w : World) (pathname sql : string) (st : State) :
  String.eqb sql "" = false -> cacheMiss st pathname ->
  gateway w pathname sql st
  = tryCatch
      (do response <- callApi w (apiCall (ACCOUNT_ID w) (ANALYTICS_API_TOKEN w) sql);
       if negb (reply_ok response) then
         throw (mkError "Error"
                  ("AE API: " +:+ JS.decimal (reply_status response) +:+ ": "
                   +:+ textOrEmpty response))
       else
         do result <- lift (reply_json response);
         do data <- lift (readData result);
         run kvPut w pathname (stringify data) CACHE_TTL_SECONDS;
         ret (Some (jsonResponse data "MISS")))
      (fun err => ret (Some (textResponse 500 (errorToString err +:+ newline))))
      (after st (kv st) [KvGet pathname]).
Proof.
  intros Hsql Hmiss. unfold gateway at 1. rewrite Hsql.
  unfold kvGet, bind at 1 2, emit, after. cbn.
  destruct Hmiss as [H|(v & ttl & H & Hv)]; rewrite H; [done|by rewrite Hv].
Qed.

Lemma gateway_miss_not_ok (w : World) (pathname sql : string) (st : State)
      (reply : ApiReply) :
  String.eqb sql "" = false -> cacheMiss st pathname ->
  apiFetch w (apiCall (ACCOUNT_ID w) (ANALYTICS_API_TOKEN w) sql) = Ret reply ->
  reply_ok reply = false ->
  gateway w pathname sql st
  = (Ret (Some (textResponse 500
                  (errorToString
                     (mkError "Error"
                        ("AE API: " +:+ JS.decimal (reply_status reply) +:+ ": "
                         +:+ textOrEmpty reply)) +:+ newline))),
     after st (kv st)
       [KvGet pathname;
        ApiFetch (apiCall (ACCOUNT_ID w) (ANALYTICS_API_TOKEN w) sql)]).
Proof.
  intros Hsql Hmiss Hreply Hok. rewrite gateway_miss by done.
  run_gateway. rewrite Hreply, Hok. cbn. by rewrite <- app_assoc.
Qed.

Lemma gateway_miss_malformed (w : World) (pathname sql : string) (st : State)
      (reply : ApiReply) (e : JSError) :
  String.eqb sql "" = false -> cacheMiss st pathname ->
  apiFetch w (apiCall (ACCOUNT_ID w) (ANALYTICS_API_TOKEN w) sql) = Ret reply ->
  reply_ok reply = true -> reply_json reply = Throw e ->
  gateway w pathname sql st
  = (Ret (Some (textResponse 500 (errorToString e +:+ newline))),
     after st (kv st)
       [KvGet pathname;
        ApiFetch (apiCall (ACCOUNT_ID w) (ANALYTICS_API_TOKEN w) sql)]).
Proof.
  intros Hsql Hmiss Hreply Hok Hjson. rewrite gateway_miss by done.
  run_gateway. rewrite Hreply, Hok, Hjson. cbn. by rewrite <- app_assoc.
Qed.

Lemma gateway_miss_success (w : World) (pathname sql : string) (st : State)
      (reply : ApiReply) (result data : JSValue) :
  String.eqb sql "" = false -> cacheMiss st pathname ->
  apiFetch w (apiCall (ACCOUNT_ID w) (ANALYTICS_API_TOKEN w) sql) = Ret reply ->
  reply_ok reply = true -> reply_json reply = Ret result ->
  JS.notNullish result = true -> JS.getProp result "data" = data ->
  data <> VUndefined ->
  gateway w pathname sql st
  = (Ret (Some (mkResponse 200 (BodyJson data) applicationJson (Some "MISS"))),
     after st (<[pathname := (JsonText data, 60)]> (kv st))
       [KvGet pathname;
        ApiFetch (apiCall (ACCOUNT_ID w) (ANALYTICS_API_TOKEN w) sql);
        KvPut pathname (JsonText data) 60]).
Proof.
  intros Hsql Hmiss Hreply Hok Hjson Hres Hdata Hdef.
  rewrite gateway_miss by done.
  run_gateway. rewrite Hreply, Hok, Hjson. cbn.
  assert (Hread : readData result = Ret data)
    by (unfold readData; rewrite <- Hdata; by destruct result).
  rewrite Hread. unfold stringify, jsonResponse.
  destruct data; try done; cbn; by rewrite <- !app_assoc.
Qed.

Lemma gateway_miss_queries (w : World) (pathname sql : string) (st : State) :
  String.eqb sql "" = false -> cacheMiss st pathname ->
  exists t,
    trace (gateway w pathname sql st).2 = trace st ++ t
    /\ upstreamQueries t = [apiCall (ACCOUNT_ID w) (ANALYTICS_API_TOKEN w) sql].
Proof.
  intros Hsql Hmiss. rewrite gateway_miss by done. run_gateway.
  destruct (apiFetch w _) as [reply|e]; cbn;
    [|eexists; rewrite <- app_assoc; split; [reflexivity|done]].
  destruct (reply_ok reply); cbn;
    [|eexists; rewrite <- app_assoc; split; [reflexivity|done]].
  destruct (reply_json reply) as [result|e]; cbn;
    [|eexists; rewrite <- app_assoc; split; [reflexivity|done]].
  destruct (readData result) as [data|e]; cbn;
    [|eexists; rewrite <- app_assoc; split; [reflexivity|done]].
  destruct (stringify data) as [text|]; cbn;
    [eexists; rewrite <- !app_assoc; split; [reflexivity|done]|].
  destruct (kvPutUndefined w); cbn;
    eexists; rewrite <- ?app_assoc; split; try reflexivity; done.
Qed.

Lemma answerQuery_some (w : World) (req : Request) (sql : string) (st st' : State)
      (resp : Response) :
  gateway w (pathnameOf req) sql st = (Ret (Some resp), st') ->
  answerQuery w req sql st = (Ret resp, st').
Proof. intros H. unfold answerQuery, bind. by rewrite H. Qed.

Lemma gateway_answers (w : World) (pathname sql : string) (st : State) :
  String.eqb sql "" = false -> (gateway w pathname sql st).1 <> Ret None.
Proof.
  intros Hsql.
  assert (Hquery : forall st1,
    (tryCatch
      (do response <- callApi w (apiCall (ACCOUNT_ID w) (ANALYTICS_API_TOKEN w) sql);
       if negb (reply_ok response) then
         throw (mkError "Error"
                  ("AE API: " +:+ JS.decimal (reply_status response) +:+ ": "
                   +:+ textOrEmpty response))
       else
         do result <- lift (reply_json response);
         do data <- lift (readData result);
         run kvPut w pathname (stringify data) CACHE_TTL_SECONDS;
         ret (Some (jsonResponse data "MISS")))
      (fun err => ret (Some (textResponse 500 (errorToString err +:+ newline))))
      st1).1 <> Ret None).
  { intros st1. run_gateway.
    destruct (apiFetch w _) as [reply|?]; cbn; [|done].
    destruct (reply_ok reply); cbn; [|done].
    destruct (reply_json reply) as [result|?]; cbn; [|done].
    destruct (readData result) as [data|?]; cbn; [|done].
    destruct (stringify data); cbn; [done|].
    by destruct (kvPutUndefined w). }
  unfold gateway. rewrite Hsql. unfold kvGet, bind at 1 2, emit. cbn.
  destruct (kv st !! pathname) as [[[v|] ttl]|]; cbn; try done.
  destruct (JS.truthy v); [done|apply Hquery].
Qed.

Lemma answerQuery_trace (w : World) (req : Request) (sql : string) (st : State) :
  String.eqb sql "" = false ->
  trace (answerQuery w req sql st).2 = trace (gateway w (pathnameOf req) sql st).2.
Proof.
  intros Hsql. unfold answerQuery, bind.
  pose proof (gateway_answers w (pathnameOf req) sql st Hsql) as H.
  by destruct (gateway w (pathnameOf req) sql st) as [[[resp|]|e] st'].
Qed.

Lemma gateway_cases (w : World) (pathname sql : string) (st : State) :
  String.eqb sql "" = false ->
  gatewayOutcome pathname st (gateway w pathname sql st).
Proof.
  intros Hsql.
  assert (Hmiss : cacheMiss st pathname ->
                  gatewayOutcome pathname st (gateway w pathname sql st)).
  { intros Hm. rewrite gateway_miss by done. run_gateway. unfold gatewayOutcome.
    destruct (apiFetch w _) as [reply|?]; cbn;
      [|eexists; rewrite <- app_assoc; split; [reflexivity|]; split; [done|];
        right; left; split; [eexists; split; [reflexivity|by right]|done]].
    destruct (reply_ok reply); cbn;
      [|eexists; rewrite <- app_assoc; split; [reflexivity|]; split; [done|];
        right; left; split; [eexists; split; [reflexivity|by right]|done]].
    destruct (reply_json reply) as [result|?]; cbn;
      [|eexists; rewrite <- app_assoc; split; [reflexivity|]; split; [done|];
        right; left; split; [eexists; split; [reflexivity|by right]|done]].
    destruct (readData result) as [data|?]; cbn;
      [|eexists; rewrite <- app_assoc; split; [reflexivity|]; split; [done|];
        right; left; split; [eexists; split; [reflexivity|by right]|done]].
    destruct (stringify data) as [text|]; cbn.
    { eexists; rewrite <- !app_assoc; split; [reflexivity|]; split; [done|].
      right; right. by exists text, data. }
    destruct (kvPutUndefined w); cbn.
    - eexists; rewrite <- app_assoc; split; [reflexivity|]; split; [done|].
      right; left; split; [eexists; split; [reflexivity|by right]|done].
    - eexists; rewrite <- !app_assoc; split; [reflexivity|]; split; [done|].
      right; right. by exists UndefinedText, data. }
  destruct (kv st !! pathname) as [[[v|] ttl]|] eqn:Hkv.
  - destruct (JS.truthy v) eqn:Hv.
    + rewrite (gateway_hit w pathname sql st v Hsql) by (by exists ttl).
      exists [KvGet pathname]. split; [done|]. split; [done|].
      right; left. split; [|done]. eexists. split; [reflexivity|]. by left.
    + apply Hmiss. right. by exists v, ttl.
  - run_gateway. rewrite Hsql, Hkv. exists [KvGet pathname].
    split; [done|]. split; [done|]. left.
    split; [by exists ttl|]. split; [by eexists|done].
  - apply Hmiss. by left.
Qed.

Lemma supported_selectSql (pathname : string) :
  supported pathname -> exists sql, selectSql pathname = Some sql.
Proof. intros [->|[->| ->]]; eauto. Qed.

(** The gateway starts with the lookup of the path in the cache. *)
Lemma gateway_looks_up (w : World) (pathname sql : string) (st : State) :
  String.eqb sql "" = false ->
  exists t, trace (gateway w pathname sql st).2 = trace st ++ KvGet pathname :: t.
Proof.
  intros Hsql.
  assert (Hmiss : cacheMiss st pathname ->
                  exists t, trace (gateway w pathname sql st).2
                            = trace st ++ KvGet pathname :: t).
  { intros Hm. rewrite gateway_miss by done.
    match goal with |- context [tryCatch ?m ?h ?s] =>
      assert (He : emitsOnly notSubmission (tryCatch m h))
        by (unfold callApi; frame);
      destruct (He s) as (t & Ht & _) end.
    exists t. rewrite Ht. unfold after. cbn. by rewrite <- app_assoc. }
  destruct (kv st !! pathname) as [[[v|] ttl]|] eqn:Hkv.
  - destruct (JS.truthy v) eqn:Hv.
    + rewrite (gateway_hit w pathname sql st v Hsql) by (by exists ttl).
      by exists [].
    + apply Hmiss. right. by exists v, ttl.
  - run_gateway. rewrite Hsql, Hkv. by exists [].
  - apply Hmiss. by left.
Qed.

(** An admitted request on a reporting path reaches the dispatch on the
    path: it is never answered 401, an unsupported path is answered 404,
    and for a supported path the cache is consulted. *)
Lemma admitted_proceeds (w : World) (req : Request) (st : State) :
  isAPIPath (pathnameOf req) = true -> admitted w req ->
  proceedsToRouting w req st.
Proof.
  intros Hapi Hadm. unfold proceedsToRouting. split; [|split].
  - intros resp. rewrite (proj1 (fetch_route w req st)).
    rewrite (route_admitted w req st Hapi Hadm). unfold dispatch.
    destruct (selectSql (pathnameOf req)) as [sql|] eqn:Hsel;
      [|by intros [= <-]].
    destruct (selectSql_supported _ _ Hsel) as (_ & Hne & _).
    destruct (gateway_cases w (pathnameOf req) sql st Hne)
      as (t & _ & _ & [(_ & [e He] & _)
                      |[([r [Hr Hs]] & _)|(text & data & Hr & _)]]);
      unfold bind; destruct (gateway w (pathnameOf req) sql st) as [o st'];
      cbn in *; subst o; try done.
    + intros [= <-]. destruct Hs as [[-> _]| ->]; done.
    + by intros [= <-].
  - intros Hsup. rewrite (proj1 (fetch_route w req st)).
    rewrite (route_admitted w req st Hapi Hadm). unfold dispatch.
    by rewrite (selectSql_unsupported _ Hsup).
  - intros Hsup. destruct (supported_selectSql _ Hsup) as [sql Hsel].
    destruct (selectSql_supported _ _ Hsel) as (_ & Hne & _).
    rewrite (fetch_supported w req st sql Hadm Hsel).
    rewrite answerQuery_trace by done.
    destruct (gateway_looks_up w (pathnameOf req) sql st Hne) as [t ->].
    rewrite drop_app_length. apply elem_of_cons. by left.
Qed.

(** ** Authorization, as seen on the handler *)

(** C5. On a reporting path: with a non-empty configured token, a request
    whose authorization header is not [Bearer ] followed by that token is
    answered 401 and nothing else happens (the state is untouched); a
    request that carries it goes on to the dispatch on the path, and so
    does every request when the configured token is empty, whatever it
    carries: the handler's answer is then never 401, it is 404 for an
    unsupported path, and for a supported path the cache is consulted. *)
Theorem reporting_authorization (w : World) (req : Request) (st : State) :
  isAPIPath (pathnameOf req) = true ->
  (QUERY_TOKEN w <> "" ->
   req_authorization req <> Some ("Bearer " +:+ QUERY_TOKEN w) ->
   route w req st = (Ret (textResponse 401 ("Unauthorized" +:+ newline)), st)
   /\ (fetch w req st).1 = Ret (textResponse 401 ("Unauthorized" +:+ newline))
   /\ status (textResponse 401 ("Unauthorized" +:+ newline)) = 401)
  /\ (QUERY_TOKEN w <> "" ->
      req_authorization req = Some ("Bearer " +:+ QUERY_TOKEN w) ->
      route w req st = dispatch w req (pathnameOf req) st
      /\ (fetch w req st).1 = (dispatch w req (pathnameOf req) st).1
      /\ proceedsToRouting w req st)
  /\ (QUERY_TOKEN w = "" ->
      route w req st = dispatch w req (pathnameOf req) st
      /\ (fetch w req st).1 = (dispatch w req (pathnameOf req) st).1
      /\ proceedsToRouting w req st).
Proof.
  intros Hapi.
  assert (Hgo : admitted w req ->
                route w req st = dispatch w req (pathnameOf req) st
                /\ (fetch w req st).1 = (dispatch w req (pathnameOf req) st).1
                /\ proceedsToRouting w req st).
  { intros Hadm. pose proof (route_admitted w req st Hapi Hadm) as Hr.
    split; [done|]. split; [|by apply admitted_proceeds].
    by rewrite (proj1 (fetch_route w req st)), Hr. }
  split; [|split].
  - intros H1 H2.
    assert (Hr : route w req st
                 = (Ret (textResponse 401 ("Unauthorized" +:+ newline)), st)).
    { apply route_rejected; [done|]. by apply rejected_true. }
    split; [done|]. split; [|done].
    rewrite (proj1 (fetch_route w req st)). by rewrite Hr.
  - intros _ H. apply Hgo. by right.
  - intros H. apply Hgo. by left.
Qed.

Lemma stripTrailing_space (s : string) :
  stripTrailing (s +:+ " ") = stripTrailing s.
Proof.
  induction s as [|c s IH]; [done|].
  rewrite append_cons. cbn [stripTrailing]. by rewrite IH.
Qed.

(** White space around the value sent does not reach the handler. *)
Lemma headerValue_spaces (raw : string) :
  headerValue (" " +:+ raw +:+ " ") = headerValue raw.
Proof.
  unfold headerValue. rewrite append_cons, append_nil.
  change (stripLeading (String " " (raw +:+ " ")))
    with (stripLeading (raw +:+ " ")).
  induction raw as [|c raw IH]; [done|].
  rewrite append_cons. cbn [stripLeading].
  destruct (isHttpWhitespace c); [done|].
  rewrite <- append_cons. apply stripTrailing_space.
Qed.

Lemma fetch_rejected (w : World) (req : Request) (st : State) :
  isAPIPath (pathnameOf req) = true -> rejected w req = true ->
  (fetch w req st).1 = Ret (textResponse 401 ("Unauthorized" +:+ newline)).
Proof.
  intros Hapi Hrej. rewrite (proj1 (fetch_route w req st)).
  by rewrite (route_rejected w req st Hapi Hrej).
Qed.

(** C10 (amended). The handler reads the authorization header as
    [headers.get] returns it, with the white space around the value sent
    removed, and tests it for the seven characters [Bearer ], compared
    exactly. With a non-empty configured token: a request without the
    header, or whose header does not begin with these characters
    ([bearer x], [BEARER x]), yields the empty token and the answer 401; a
    header that begins with them yields everything after the seventh
    character as the token, white space after the prefix included, and the
    request is answered 401 unless that text is the configured token, in
    which case it goes on to the dispatch. *)
Theorem bearer_prefix_is_exact
  (w : World) (req : Request) (st : State) (sent : option string) :
  isAPIPath (pathnameOf req) = true ->
  QUERY_TOKEN w <> "" ->
  req_authorization req = headerValue <$> sent ->
  String.length bearerPrefix = 7%nat
  /\ (sent = None ->
      bearerToken (req_authorization req) = ""
      /\ (fetch w req st).1 = Ret (textResponse 401 ("Unauthorized" +:+ newline)))
  /\ (forall raw, sent = Some raw ->
      JS.startsWith bearerPrefix (headerValue raw) = false ->
      bearerToken (req_authorization req) = ""
      /\ (fetch w req st).1 = Ret (textResponse 401 ("Unauthorized" +:+ newline))
      /\ route w req st
         = (Ret (textResponse 401 ("Unauthorized" +:+ newline)), st))
  /\ (forall raw rest, sent = Some raw ->
      headerValue raw = bearerPrefix +:+ rest ->
      bearerToken (req_authorization req) = rest
      /\ (rest <> QUERY_TOKEN w ->
          (fetch w req st).1
          = Ret (textResponse 401 ("Unauthorized" +:+ newline))
          /\ route w req st
             = (Ret (textResponse 401 ("Unauthorized" +:+ newline)), st))
      /\ (rest = QUERY_TOKEN w -> proceedsToRouting w req st))
  /\ (forall raw, headerValue (" " +:+ raw +:+ " ") = headerValue raw)
  /\ JS.startsWith bearerPrefix (headerValue "bearer x") = false
  /\ JS.startsWith bearerPrefix (headerValue "BEARER x") = false
  /\ headerValue " Bearer s3cret " = "Bearer s3cret"
  /\ headerValue "Bearer  s3cret" = "Bearer  s3cret".
Proof.
  intros Hapi Htok Hauth.
  assert (Hempty : bearerToken (req_authorization req) = "" ->
                   rejected w req = true).
  { intros Hb. unfold rejected. rewrite Hb.
    destruct (String.eqb_spec (QUERY_TOKEN w) ""); [done|]. cbn.
    by destruct (QUERY_TOKEN w). }
  split; [done|]. split; [|split; [|split; [|split; [|done]]]].
  - intros ->. cbn in Hauth. rewrite Hauth. split; [done|].
    apply fetch_rejected; [done|]. apply Hempty. by rewrite Hauth.
  - intros raw -> Hstart. cbn in Hauth.
    assert (Hb : bearerToken (req_authorization req) = "")
      by (apply bearerToken_other; by rewrite Hauth).
    split; [done|]. split.
    + apply fetch_rejected; [done|by apply Hempty].
    + apply route_rejected; [done|by apply Hempty].
  - intros raw rest -> Hval. cbn in Hauth. rewrite Hval in Hauth.
    rewrite Hauth. split; [apply bearerToken_prefixed|]. split.
    + intros Hne.
      assert (Hrej : rejected w req = true).
      { apply rejected_true. split; [done|]. rewrite Hauth.
        unfold bearerPrefix. intros [= E]. by apply Hne. }
      split; [by apply fetch_rejected|by apply route_rejected].
    + intros ->. apply admitted_proceeds; [done|]. by right.
  - apply headerValue_spaces.
Qed.

(** ** The reporting paths, end to end *)

Lemma append_assoc (a b c : string) : (a +:+ b) +:+ c = a +:+ b +:+ c.
Proof. induction a as [|x a IH]; [done|]. by rewrite !append_cons, IH. Qed.

(** C6 (amended). For a request that passes the authorization check, the
    path [/_php_log_last] is answered by the recent-events query (one day
    back, newest first, 20 rows), the paths [/_php_log_top] and [/_php_log]
    by the top-paths query (one month back, by hits, 20 rows), and every
    other path under the reporting prefix by 404 with nothing else done. *)
Theorem reporting_dispatch (w : World) (req : Request) (st : State) :
  isAPIPath (pathnameOf req) = true ->
  admitted w req ->
  (pathnameOf req = "/_php_log_last" ->
   fetch w req st = answerQuery w req sqlLast st)
  /\ (pathnameOf req = "/_php_log_top" ->
      fetch w req st = answerQuery w req sqlTop st)
  /\ (pathnameOf req = "/_php_log" ->
      fetch w req st = answerQuery w req sqlTop st)
  /\ (~ supported (pathnameOf req) ->
      (fetch w req st).1 = Ret (textResponse 404 ("API not found" +:+ newline))
      /\ route w req st
         = (Ret (textResponse 404 ("API not found" +:+ newline)), st))
  /\ occursIn "INTERVAL '1' DAY" sqlLast = true
  /\ occursIn "ORDER BY timestamp DESC" sqlLast = true
  /\ occursIn "LIMIT 20" sqlLast = true
  /\ occursIn "INTERVAL '1' MONTH" sqlTop = true
  /\ occursIn "count() AS hits" sqlTop = true
  /\ occursIn "ORDER BY hits DESC" sqlTop = true
  /\ occursIn "LIMIT 20" sqlTop = true.
Proof.
  intros Hapi Hadm.
  split; [|split; [|split; [|split]]].
  - intros H. apply fetch_supported; [done|]. by rewrite H.
  - intros H. apply fetch_supported; [done|]. by rewrite H.
  - intros H. apply fetch_supported; [done|]. by rewrite H.
  - intros H.
    assert (Hr : route w req st
                 = (Ret (textResponse 404 ("API not found" +:+ newline)), st)).
    { rewrite route_admitted by done. unfold dispatch.
      by rewrite (selectSql_unsupported _ H). }
    split; [|done]. rewrite (proj1 (fetch_route w req st)). by rewrite Hr.
  - repeat split; vm_compute; reflexivity.
Qed.

(** C6, the claim as stated fails: with a token configured, a request
    without credentials for an unknown reporting path is answered 401, not
    404. *)
Lemma unknown_path_unauthorized_counterexample :
  isAPIPath "/_php_log_bogus" = true
  /\ ~ supported "/_php_log_bogus"
  /\ (fetch (sampleWorld "s3cret" apiDown)
            (sampleRequest "/_php_log_bogus" None) emptyState).1
     = Ret (textResponse 401 ("Unauthorized" +:+ newline))
  /\ status (textResponse 401 ("Unauthorized" +:+ newline)) <> 404.
Proof.
  split; [reflexivity|]. split; [|split; [reflexivity|done]].
  unfold supported. intros [H|[H|H]]; discriminate.
Qed.

(** C7 (amended). For a request that passes the authorization check on a
    supported reporting path: when the cache holds a truthy JSON value
    under the path, that value is the body, the cache status is [HIT] and
    the only call made is the cache lookup; when the cache holds nothing
    usable (no entry, or a falsy value), exactly one query is sent to the
    analytics endpoint, and if the endpoint answers with a success status
    and a JSON body that has a [data] field, that field is stored under the
    path with a TTL of 60 seconds by the one cache write and is the body,
    with cache status [MISS]. *)
Theorem cached_query_gateway (w : World) (req : Request) (st : State) (sql : string) :
  admitted w req ->
  selectSql (pathnameOf req) = Some sql ->
  (forall v, cacheHit st (pathnameOf req) v ->
     fetch w req st
     = (Ret (mkResponse 200 (BodyJson v) applicationJson (Some "HIT")),
        after st (kv st) [KvGet (pathnameOf req)])
     /\ upstreamQueries [KvGet (pathnameOf req)] = [])
  /\ (cacheMiss st (pathnameOf req) ->
      exists t,
        trace (fetch w req st).2 = trace st ++ t
        /\ upstreamQueries t
           = [apiCall (ACCOUNT_ID w) (ANALYTICS_API_TOKEN w) sql])
  /\ (cacheMiss st (pathnameOf req) ->
      forall reply result,
        apiFetch w (apiCall (ACCOUNT_ID w) (ANALYTICS_API_TOKEN w) sql)
        = Ret reply ->
        reply_ok reply = true ->
        reply_json reply = Ret result ->
        JS.notNullish result = true ->
        JS.getProp result "data" <> VUndefined ->
        fetch w req st
        = (Ret (mkResponse 200 (BodyJson (JS.getProp result "data"))
                           applicationJson (Some "MISS")),
           after st
             (<[pathnameOf req := (JsonText (JS.getProp result "data"), 60)]>
                (kv st))
             [KvGet (pathnameOf req);
              ApiFetch (apiCall (ACCOUNT_ID w) (ANALYTICS_API_TOKEN w) sql);
              KvPut (pathnameOf req) (JsonText (JS.getProp result "data")) 60])
        /\ cacheWrites
             [KvGet (pathnameOf req);
              ApiFetch (apiCall (ACCOUNT_ID w) (ANALYTICS_API_TOKEN w) sql);
              KvPut (pathnameOf req) (JsonText (JS.getProp result "data")) 60]
           = [(pathnameOf req, JsonText (JS.getProp result "data"), 60)]).
Proof.
  intros Hadm Hsql.
  destruct (selectSql_supported _ _ Hsql) as (_ & Hne & _ & _).
  rewrite (fetch_supported w req st sql Hadm Hsql).
  split; [|split].
  - intros v Hhit. split; [|done].
    apply answerQuery_some. by apply gateway_hit.
  - intros Hmiss. rewrite answerQuery_trace by done.
    by apply gateway_miss_queries.
  - intros Hmiss reply result Hreply Hok Hjson Hres Hdata. split; [|done].
    apply answerQuery_some. by eapply gateway_miss_success.
Qed.

(** C7, the claim as stated fails: a first request stores the [data] field
    [0] of the endpoint's answer, so an entry exists under the path; the
    request that follows is a miss all the same and queries the endpoint
    again. *)
Lemma falsy_cache_entry_counterexample :
  let w := sampleWorld "" (apiAnswers 200 "{}" (Ret (VObj [("data", VNum 0)]))) in
  let req := sampleRequest "/_php_log_top" None in
  let st1 := (fetch w req emptyState).2 in
  kv st1 !! "/_php_log_top" = Some (JsonText (VNum 0), 60)
  /\ (xCache <$> (match (fetch w req st1).1 with
                  | Ret r => Some r
                  | Throw _ => None
                  end)) = Some (Some "MISS")
  /\ upstreamQueries (drop (length (trace st1)) (trace (fetch w req st1).2))
     = [apiCall "acct" "api-token" sqlTop].
Proof. cbn zeta. repeat split; vm_compute; reflexivity. Qed.

(** C8. On a miss, when the analytics endpoint answers with a status
    outside 200-299, the response is a 500 whose plain-text body is
    [Error: AE API: ], the status in decimal, [: ], the text of the
    endpoint's body (empty when it cannot be read) and a line feed; the
    store is unchanged and no cache write is made. The query helper of the
    analytics client throws the error carrying the same status and text. *)
Theorem upstream_failure_is_500
  (w : World) (req : Request) (st : State) (sql : string) (reply : ApiReply) :
  admitted w req ->
  selectSql (pathnameOf req) = Some sql ->
  cacheMiss st (pathnameOf req) ->
  apiFetch w (apiCall (ACCOUNT_ID w) (ANALYTICS_API_TOKEN w) sql) = Ret reply ->
  reply_ok reply = false ->
  fetch w req st
  = (Ret (mkResponse 500
            (BodyText ("Error: AE API: " +:+ JS.decimal (reply_status reply)
                       +:+ ": " +:+ default "" (reply_text reply) +:+ newline))
            textPlain None),
     after st (kv st)
       [KvGet (pathnameOf req);
        ApiFetch (apiCall (ACCOUNT_ID w) (ANALYTICS_API_TOKEN w) sql)])
  /\ cacheWrites
       [KvGet (pathnameOf req);
        ApiFetch (apiCall (ACCOUNT_ID w) (ANALYTICS_API_TOKEN w) sql)] = []
  /\ (queryAnalyticsEngine w (ACCOUNT_ID w) (ANALYTICS_API_TOKEN w) sql st).1
     = Throw (mkError "Error"
                ("Analytics API error " +:+ JS.decimal (reply_status reply)
                 +:+ ": " +:+ default "" (reply_text reply))).
Proof.
  intros Hadm Hsql Hmiss Hreply Hok.
  destruct (selectSql_supported _ _ Hsql) as (_ & Hne & _ & _).
  rewrite (fetch_supported w req st sql Hadm Hsql).
  split; [|split; [done|]].
  - erewrite answerQuery_some;
      [|by apply (gateway_miss_not_ok w _ sql st reply)].
    unfold textResponse, textOrEmpty.
    change (errorToString (mkError "Error" ?m)) with ("Error: " +:+ m).
    do 3 f_equal. rewrite !append_assoc.
    by destruct (reply_text reply).
  - unfold queryAnalyticsEngine, callApi, bind, emit, lift, throw. cbn.
    rewrite Hreply, Hok. cbn. unfold textOrEmpty.
    by destruct (reply_text reply).
Qed.


(** ** The analytics client *)

Lemma setOwn_fresh (obj : list (string * JSValue)) (k : string) (v : JSValue) :
  k ∉ obj.*1 -> JS.setOwn obj k v = obj ++ [(k, v)].
Proof.
  induction obj as [|[k' v'] obj IH]; [done|].
  cbn. intros H. apply not_elem_of_cons in H as [Hne Hnin].
  destruct (String.eqb_spec k k'); [done|]. by rewrite IH.
Qed.

Lemma setProp_plain (detached : bool) (obj : list (string * JSValue))
      (c : string) (v : JSValue) :
  c <> "__proto__" -> JS.setProp detached obj c v = (detached, JS.setOwn obj c v).
Proof.
  intros H. unfold JS.setProp. by destruct (String.eqb_spec c "__proto__").
Qed.

Lemma fillObject_array (cols : list string) (i : nat) (row : list JSValue)
      (obj : list (string * JSValue)) :
  NoDup cols -> "__proto__" ∉ cols -> Forall (fun c => c ∉ obj.*1) cols ->
  fillObject cols i (VArr row) false obj
  = Ret (obj ++ imap (fun j c => (c, nth (i + j) row VUndefined)) cols).
Proof.
  revert i obj. induction cols as [|c cols IH]; intros i obj Hnd Hproto Hfresh.
  - cbn. by rewrite app_nil_r.
  - apply NoDup_cons in Hnd as [Hc Hnd].
    apply not_elem_of_cons in Hproto as [Hp Hproto].
    apply Forall_cons in Hfresh as [Hfc Hfresh].
    cbn [fillObject indexValue]. rewrite setProp_plain by congruence.
    rewrite setOwn_fresh by done. rewrite IH; [|done|done|].
    + rewrite <- app_assoc. cbn. rewrite Nat.add_0_r. do 3 f_equal.
      apply imap_ext. intros j x _. cbn. do 2 f_equal. lia.
    + rewrite fmap_app. cbn.
      apply Forall_forall. intros x Hx.
      rewrite Forall_forall in Hfresh. specialize (Hfresh x Hx).
      rewrite elem_of_app, list_elem_of_singleton.
      intros [H| ->]; [done|]. done.
Qed.

(** A row that is an array becomes the object of its values keyed by the
    column names, its properties created in column order. *)
Lemma rowToObject_array (cols : list string) (row : list JSValue) :
  NoDup cols -> "__proto__" ∉ cols ->
  rowToObject cols (VArr row) = Ret (zipRow cols row).
Proof.
  intros Hnd Hproto. unfold rowToObject, zipRow.
  rewrite fillObject_array; [done..|].
  apply Forall_forall. intros x _. cbn. apply not_elem_of_nil.
Qed.

Lemma mapRows_arrays (cols : list string) (rows : list (list JSValue)) :
  NoDup cols -> "__proto__" ∉ cols ->
  mapRows (rowToObject cols) (VArr <$> rows) = Ret (zipRow cols <$> rows).
Proof.
  intros Hnd Hproto. induction rows as [|r rows IH]; [done|].
  cbn [fmap list_fmap mapRows]. rewrite rowToObject_array by done.
  fold (VArr <$> rows). by rewrite IH.
Qed.

(** A matrix of rows is zipped against the column names. *)
Lemma normalize_matrix (body : JSValue) (c : string) (cols : list string)
      (r : list JSValue) (rows : list (list JSValue)) :
  extractCols body = c :: cols -> extractRows body = VArr <$> (r :: rows) ->
  NoDup (c :: cols) -> "__proto__" ∉ c :: cols ->
  normalize body
  = Ret (mkResult (length (r :: rows)) (zipRow (c :: cols) <$> (r :: rows))).
Proof.
  intros Hc Hr Hnd Hproto. unfold normalize. rewrite Hc, Hr.
  cbn [length Nat.ltb Nat.leb fmap list_fmap nth JS.isArray andb].
  fold (VArr <$> rows).
  change (VArr r :: (VArr <$> rows)) with (VArr <$> (r :: rows)).
  rewrite mapRows_arrays by done. by rewrite length_fmap.
Qed.

Lemma if_same {A} (b : bool) (x : A) : (if b then x else x) = x.
Proof. by destruct b. Qed.

(** Without column names, without rows, or with a first row that is not an
    array, the rows are the items. *)
Lemma normalize_passthrough (body : JSValue) :
  extractCols body = [] \/ JS.isArray (nth 0 (extractRows body) VUndefined) = false ->
  normalize body
  = Ret (mkResult (length (extractRows body)) (extractRows body)).
Proof.
  unfold normalize. intros [->| ->].
  - cbn [length Nat.ltb Nat.leb andb]. by rewrite if_same.
  - by rewrite andb_false_r, if_same.
Qed.

(** Whenever the normalizer returns, the count is the number of items. *)
Lemma normalize_count (body : JSValue) (r : AEQueryResult) :
  normalize body = Ret r -> count r = length (items r).
Proof.
  unfold normalize. rewrite if_same.
  match goal with |- context [if ?c then _ else _] => destruct c end.
  - destruct (mapRows _ _); [by intros [= <-]|done].
  - by intros [= <-].
Qed.

(** The places of the column names are tried in order: the schema, then
    [meta.columns], then the top-level [columns]; a place that holds an
    empty array wins with no columns. *)
Example extractCols_priority :
  let schema names := ("schema", VObj [("columns", VArr names)]) in
  extractCols
    (VObj [("meta", VObj [schema [VObj [("name", VStr "s")]];
                          ("columns", VArr [VStr "m"])]);
           ("columns", VArr [VStr "t"])]) = ["s"]
  /\ extractCols
       (VObj [("meta", VObj [schema [VStr "s"]; ("columns", VArr [VStr "m"])]);
              ("columns", VArr [VStr "t"])]) = ["m"]
  /\ extractCols
       (VObj [("meta", VObj [schema [VNull]; ("columns", VArr [VNum 1])]);
              ("columns", VArr [VStr "t"])]) = ["t"]
  /\ extractCols
       (VObj [("meta", VObj [schema []; ("columns", VArr [VStr "m"])])]) = []
  /\ extractCols (VObj [("columns", VArr [VStr "t"; VNum 2])]) = []
  /\ extractCols VNull = [] /\ extractCols (VStr "x") = [].
Proof. cbn zeta. repeat split; reflexivity. Qed.

(** The places of the rows are tried in order: [data], [rows], [result],
    [items]. *)
Example extractRows_priority :
  extractRows (VObj [("items", VArr [VNum 4]); ("result", VArr [VNum 3]);
                     ("rows", VArr [VNum 2]); ("data", VArr [VNum 1])]) = [VNum 1]
  /\ extractRows (VObj [("items", VArr [VNum 4]); ("result", VArr [VNum 3]);
                        ("rows", VArr [VNum 2]); ("data", VStr "no")]) = [VNum 2]
  /\ extractRows (VObj [("items", VArr [VNum 4]); ("result", VArr [VNum 3])])
     = [VNum 3]
  /\ extractRows (VObj [("items", VArr [VNum 4])]) = [VNum 4]
  /\ extractRows (VObj [("data", VObj [])]) = []
  /\ extractRows (VNum 7) = [].
Proof. repeat split; reflexivity. Qed.

(** The three worked examples of the specification. *)
Example normalize_worked_examples :
  normalize (VObj [("meta", VObj [("columns", VArr [VStr "a"; VStr "b"])]);
                   ("data", VArr [VArr [VNum 1; VNum 2]; VArr [VNum 3; VNum 4]])])
  = Ret (mkResult 2 [VObj [("a", VNum 1); ("b", VNum 2)];
                     VObj [("a", VNum 3); ("b", VNum 4)]])
  /\ normalize (VObj [("data", VArr [VObj [("x", VNum 1)]])])
     = Ret (mkResult 1 [VObj [("x", VNum 1)]])
  /\ normalize (VObj []) = Ret (mkResult 0 []).
Proof. repeat split; reflexivity. Qed.

(** A malformed body on a success status is the empty result. *)
Lemma queryAnalyticsEngine_malformed
      (w : World) (accountId apiToken sql : string) (st : State)
      (reply : ApiReply) (e : JSError) :
  apiFetch w (apiCall accountId apiToken sql) = Ret reply ->
  reply_ok reply = true -> reply_json reply = Throw e ->
  (queryAnalyticsEngine w accountId apiToken sql st).1 = Ret (mkResult 0 []).
Proof.
  intros Hreply Hok Hjson.
  unfold queryAnalyticsEngine, callApi, bind, emit, lift. cbn.
  by rewrite Hreply, Hok, Hjson.
Qed.

(** C2, at the failing input: the body has column names, a first row that
    is an array and a second row that is [null]; the columns and the rows
    are extracted as specified, and the conversion of the rows throws a
    [TypeError] instead of returning a count and items. *)
Theorem normalize_null_row_throws :
  extractCols nullRowBody = ["a"]
  /\ extractRows nullRowBody = [VArr [VNum 1]; VNull]
  /\ normalize nullRowBody
     = Throw (mkError "TypeError" "Cannot read properties of null (reading '0')")
  /\ (queryAnalyticsEngine (sampleWorld "" (apiAnswers 200 "" (Ret nullRowBody)))
                           "acct" "api-token" sqlLast emptyState).1
     = Throw (mkError "TypeError" "Cannot read properties of null (reading '0')").
Proof. repeat split; reflexivity. Qed.

(** C10, the claim as stated fails: the prefix has seven characters, and a
    header with a second space after it yields a token that is not empty
    (the space is part of it); a request whose configured token is that
    text is let through. *)
Lemma bearer_extra_space_counterexample :
  String.length bearerPrefix = 7%nat
  /\ bearerToken (Some "Bearer  s3cret") = " s3cret"
  /\ bearerToken (Some "Bearer  s3cret") <> ""
  /\ (route (sampleWorld " s3cret" apiDown)
            (sampleRequest "/_php_log_bogus" (Some "Bearer  s3cret")) emptyState).1
     = Ret (textResponse 404 ("API not found" +:+ newline)).
Proof. split; [reflexivity|]. split; [reflexivity|]. split; [discriminate|reflexivity]. Qed.

(** ** The theorems at concrete requests *)

Lemma reporting_authorization_witness :
  isAPIPath (pathnameOf (sampleRequest "/_php_log_top" None)) = true
  /\ route (sampleWorld "s3cret" apiDown)
           (sampleRequest "/_php_log_top" (Some "Bearer wrong")) emptyState
     = (Ret (textResponse 401 ("Unauthorized" +:+ newline)), emptyState)
  /\ route (sampleWorld "s3cret" apiDown)
           (sampleRequest "/_php_log_top" (Some "Bearer s3cret")) emptyState
     = dispatch (sampleWorld "s3cret" apiDown)
                (sampleRequest "/_php_log_top" (Some "Bearer s3cret"))
                "/_php_log_top" emptyState
  /\ proceedsToRouting (sampleWorld "s3cret" apiDown)
        (sampleRequest "/_php_log_top" (Some "Bearer s3cret")) emptyState
  /\ route (sampleWorld "" apiDown) (sampleRequest "/_php_log_top" None) emptyState
     = dispatch (sampleWorld "" apiDown) (sampleRequest "/_php_log_top" None)
                "/_php_log_top" emptyState
  /\ proceedsToRouting (sampleWorld "" apiDown)
        (sampleRequest "/_php_log_top" None) emptyState.
Proof.
  split; [reflexivity|].
  destruct (reporting_authorization (sampleWorld "s3cret" apiDown)
              (sampleRequest "/_php_log_top" (Some "Bearer wrong")) emptyState
              eq_refl) as (H1 & _).
  destruct (reporting_authorization (sampleWorld "s3cret" apiDown)
              (sampleRequest "/_php_log_top" (Some "Bearer s3cret")) emptyState
              eq_refl) as (_ & H2 & _).
  destruct (reporting_authorization (sampleWorld "" apiDown)
              (sampleRequest "/_php_log_top" None) emptyState eq_refl)
    as (_ & _ & H3).
  assert (Htok : QUERY_TOKEN (sampleWorld "s3cret" apiDown) <> "")
    by (cbn; discriminate).
  destruct (H1 Htok) as (E1 & _); [cbn; discriminate|].
  destruct (H2 Htok eq_refl) as (E2 & _ & P2).
  destruct (H3 eq_refl) as (E3 & _ & P3).
  split; [exact E1|]. split; [exact E2|]. split; [exact P2|].
  split; [exact E3|exact P3].
Defined.

Lemma bearer_prefix_is_exact_witness :
  let w := sampleWorld "s3cret" apiDown in
  isAPIPath (pathnameOf (sampleRequest "/_php_log_top" None)) = true
  /\ QUERY_TOKEN w <> ""
  /\ (fetch w (sampleRequest "/_php_log_top" (headerValue <$> Some "bearer s3cret"))
             emptyState).1
     = Ret (textResponse 401 ("Unauthorized" +:+ newline))
  /\ (fetch w (sampleRequest "/_php_log_top" (headerValue <$> Some "Bearer  s3cret"))
             emptyState).1
     = Ret (textResponse 401 ("Unauthorized" +:+ newline))
  /\ (fetch w (sampleRequest "/_php_log_top" (headerValue <$> None))
             emptyState).1
     = Ret (textResponse 401 ("Unauthorized" +:+ newline))
  /\ proceedsToRouting w
        (sampleRequest "/_php_log_top" (headerValue <$> Some " Bearer s3cret "))
        emptyState.
Proof.
  intros w.
  assert (Htok : QUERY_TOKEN w <> "") by (cbn; discriminate).
  split; [reflexivity|]. split; [exact Htok|].
  destruct (bearer_prefix_is_exact w
              (sampleRequest "/_php_log_top" (headerValue <$> Some "bearer s3cret"))
              emptyState (Some "bearer s3cret") eq_refl Htok eq_refl)
    as (_ & _ & H1 & _).
  destruct (H1 "bearer s3cret" eq_refl eq_refl) as (_ & E1 & _).
  destruct (bearer_prefix_is_exact w
              (sampleRequest "/_php_log_top" (headerValue <$> Some "Bearer  s3cret"))
              emptyState (Some "Bearer  s3cret") eq_refl Htok eq_refl)
    as (_ & _ & _ & H2 & _).
  destruct (H2 "Bearer  s3cret" " s3cret" eq_refl eq_refl) as (_ & H2' & _).
  destruct H2' as (E2 & _); [cbn; discriminate|].
  destruct (bearer_prefix_is_exact w
              (sampleRequest "/_php_log_top" (headerValue <$> None))
              emptyState None eq_refl Htok eq_refl)
    as (_ & H3 & _).
  destruct (H3 eq_refl) as (_ & E3).
  destruct (bearer_prefix_is_exact w
              (sampleRequest "/_php_log_top" (headerValue <$> Some " Bearer s3cret "))
              emptyState (Some " Bearer s3cret ") eq_refl Htok eq_refl)
    as (_ & _ & _ & H4 & _).
  destruct (H4 " Bearer s3cret " "s3cret" eq_refl eq_refl) as (_ & _ & P4).
  split; [exact E1|]. split; [exact E2|]. split; [exact E3|].
  apply P4. reflexivity.
Defined.

Lemma reporting_dispatch_witness :
  isAPIPath (pathnameOf (sampleRequest "/_php_log_last" None)) = true
  /\ admitted (sampleWorld "" apiDown) (sampleRequest "/_php_log_last" None)
  /\ fetch (sampleWorld "" apiDown) (sampleRequest "/_php_log_last" None) emptyState
     = answerQuery (sampleWorld "" apiDown) (sampleRequest "/_php_log_last" None)
                   sqlLast emptyState
  /\ (fetch (sampleWorld "" apiDown) (sampleRequest "/_php_log_bogus" None)
            emptyState).1
     = Ret (textResponse 404 ("API not found" +:+ newline)).
Proof.
  assert (Hadm : forall r, admitted (sampleWorld "" apiDown) r)
    by (intros r; left; reflexivity).
  split; [reflexivity|]. split; [apply Hadm|]. split.
  - destruct (reporting_dispatch (sampleWorld "" apiDown)
                (sampleRequest "/_php_log_last" None) emptyState eq_refl (Hadm _))
      as (H & _).
    apply H. reflexivity.
  - destruct (reporting_dispatch (sampleWorld "" apiDown)
                (sampleRequest "/_php_log_bogus" None) emptyState eq_refl (Hadm _))
      as (_ & _ & _ & H & _).
    apply H. unfold supported. cbn. intros [E|[E|E]]; discriminate.
Defined.

Lemma cached_query_gateway_witness :
  let w := sampleWorld "" (apiAnswers 200 "{}"
                             (Ret (VObj [("data", VArr [VNum 1])]))) in
  let req := sampleRequest "/_php_log_top" None in
  let warm := mkState {["/_php_log_top" := (JsonText (VArr [VNum 7]), 60)]} 0 [] in
  admitted w req
  /\ selectSql (pathnameOf req) = Some sqlTop
  /\ cacheHit warm (pathnameOf req) (VArr [VNum 7])
  /\ cacheMiss emptyState (pathnameOf req)
  /\ fetch w req warm
     = (Ret (mkResponse 200 (BodyJson (VArr [VNum 7])) applicationJson (Some "HIT")),
        after warm (kv warm) [KvGet "/_php_log_top"])
  /\ fetch w req emptyState
     = (Ret (mkResponse 200 (BodyJson (VArr [VNum 1])) applicationJson (Some "MISS")),
        after emptyState {["/_php_log_top" := (JsonText (VArr [VNum 1]), 60)]}
          [KvGet "/_php_log_top"; ApiFetch (apiCall "acct" "api-token" sqlTop);
           KvPut "/_php_log_top" (JsonText (VArr [VNum 1])) 60]).
Proof.
  intros w req warm.
  assert (Hadm : admitted w req) by (left; reflexivity).
  assert (Hhit : cacheHit warm (pathnameOf req) (VArr [VNum 7])).
  { exists 60. split; [|reflexivity]. vm_compute. reflexivity. }
  assert (Hmiss : cacheMiss emptyState (pathnameOf req)).
  { left. vm_compute. reflexivity. }
  split; [exact Hadm|]. split; [reflexivity|]. split; [exact Hhit|].
  split; [exact Hmiss|]. split.
  - destruct (cached_query_gateway w req warm sqlTop Hadm eq_refl) as (H & _).
    apply (H _ Hhit).
  - destruct (cached_query_gateway w req emptyState sqlTop Hadm eq_refl)
      as (_ & _ & H).
    destruct (H Hmiss (mkApiReply 200 (Some "{}")
                         (Ret (VObj [("data", VArr [VNum 1])])))
                (VObj [("data", VArr [VNum 1])]) eq_refl eq_refl eq_refl eq_refl)
      as [E _]; [cbn; discriminate|].
    exact E.
Defined.

Lemma upstream_failure_is_500_witness :
  let reply := mkApiReply 503 (Some "busy") (Throw (mkError "SyntaxError" "bad")) in
  let w := sampleWorld "" (fun _ => Ret reply) in
  let req := sampleRequest "/_php_log_last" None in
  admitted w req
  /\ selectSql (pathnameOf req) = Some sqlLast
  /\ cacheMiss emptyState (pathnameOf req)
  /\ apiFetch w (apiCall (ACCOUNT_ID w) (ANALYTICS_API_TOKEN w) sqlLast) = Ret reply
  /\ reply_ok reply = false
  /\ (fetch w req emptyState).1
     = Ret (mkResponse 500 (BodyText ("Error: AE API: 503: busy" +:+ newline))
                       textPlain None)
  /\ kv (fetch w req emptyState).2 = ∅.
Proof.
  intros reply w req.
  assert (Hadm : admitted w req) by (left; reflexivity).
  assert (Hmiss : cacheMiss emptyState (pathnameOf req)).
  { left. vm_compute. reflexivity. }
  split; [exact Hadm|]. split; [reflexivity|]. split; [exact Hmiss|].
  split; [reflexivity|]. split; [reflexivity|].
  destruct (upstream_failure_is_500 w req emptyState sqlLast reply
              Hadm eq_refl Hmiss eq_refl eq_refl) as (E & _ & _).
  rewrite E. split; reflexivity.
Defined.

(** * Further properties of the handlers and of the analytics client *)

(** ** The reporting prefix *)

Lemma rmatch_lit_cons (c : ascii) (l : string) (pos : nat) (s : string)
      (k : nat -> string -> bool) :
  Regex.rmatch true (Regex.lit (String c l)) pos s k
  = match s with
    | String a s' =>
        if Regex.chEq true a c then Regex.rmatch true (Regex.lit l) (S pos) s' k
        else false
    | EmptyString => false
    end.
Proof. by destruct l. Qed.

Lemma rmatch_lit (l : string) (pos : nat) (s : string) (k : nat -> string -> bool) :
  Regex.rmatch true (Regex.lit l) pos s k = true
  <-> exists pre rest,
        s = pre +:+ rest /\ lower pre = lower l
        /\ k (pos + String.length l)%nat rest = true.
Proof.
  revert pos s. induction l as [|c l IH]; intros pos s.
  - cbn. rewrite Nat.add_0_r. split.
    + intros H. by exists "", s.
    + intros (pre & rest & -> & Hl & Hk). by destruct pre.
  - rewrite rmatch_lit_cons. destruct s as [|a s].
    + split; [done|]. intros (pre & rest & H & Hl & _).
      destruct pre; [done|discriminate].
    + destruct (Regex.chEq true a c) eqn:E.
      * apply chEq_ci_lower in E. rewrite IH. split.
        -- intros (pre & rest & -> & Hl & Hk). exists (String a pre), rest.
           split; [done|]. split; [cbn; by rewrite E, Hl|].
           cbn. by rewrite <- Nat.add_succ_comm.
        -- intros (pre & rest & H & Hl & Hk).
           destruct pre as [|a' pre]; [done|]. rewrite append_cons in H.
           injection H as -> ->. cbn in Hl. injection Hl as _ Hl.
           exists pre, rest. split; [done|]. split; [done|].
           cbn in Hk. by rewrite Nat.add_succ_comm.
      * split; [done|]. intros (pre & rest & H & Hl & _).
        destruct pre as [|a' pre]; [done|]. rewrite append_cons in H.
        injection H as -> ->. cbn in Hl. injection Hl as Hl _.
        apply chEq_ci_lower in Hl. congruence.
Qed.

Lemma search_api_later (pos : nat) (s : string) :
  Regex.search true apiPattern (S pos) s = false.
Proof. revert pos. induction s as [|a s IH]; intros pos; cbn; [done|apply IH]. Qed.

(** X1. [isAPIPath] holds exactly of the paths that begin with
    [/_php_log], in any letter case; the prefix is not looked for further
    inside the path. *)
Theorem isAPIPath_spec (p : string) :
  isAPIPath p = true <-> hasReportingPrefix p.
Proof.
  unfold isAPIPath, Regex.test, hasReportingPrefix.
  assert (H0 : Regex.search true apiPattern 0 p
               = Regex.rmatch true (Regex.lit "/_php_log") 0 p (fun _ _ => true)).
  { destruct p as [|a p]; cbn [Regex.search].
    - by rewrite orb_false_r.
    - by rewrite search_api_later, orb_false_r. }
  rewrite H0, rmatch_lit. split.
  - intros (pre & rest & H & Hl & _). by exists pre, rest.
  - intros (pre & rest & H & Hl). by exists pre, rest.
Qed.

(** ** Forwarding and the order of effects *)

Lemma forward_run (w : World) (req : Request) (st : State) :
  forward w req st = (destination w req, after st (kv st) [forwardEffect req]).
Proof.
  unfold forward, destination, forwardEffect, after, bind, emit, lift.
  by destruct (String.eqb (req_hostname req) "<YOUR_OTHER_WORKER_DOMAIN>").
Qed.

(** The effects of the telemetry block for a flagged request. *)
Lemma telemetry_effects (w : World) (req : Request) (st : State) :
  exists tel n,
    forallb (fun e => negb (isRouting e)) tel = true
    /\ (isPhpPath (pathnameOf req) = false -> tel = [] /\ n = draws st)
    /\ fetch w req st = route w req (mkState (kv st) n (trace st ++ tel)).
Proof.
  unfold fetch, bind. destruct (isPhpPath (pathnameOf req)).
  - rewrite logPhpAttempt_run. eexists _, _. split; [|split; [done|reflexivity]].
    by destruct (sink w (accessEvent w req st)).
  - exists [], (draws st). rewrite app_nil_r. by destruct st.
Qed.





(** X2. A request whose path is outside the reporting prefix is answered by
    its forwarding destination, the service binding for the one configured
    host name and the origin for every other host: the response (or the
    failure) is the destination's, the store is untouched, the forwarding
    call is the last call of the handler's run (a rejected write is logged
    later, by the promise registered with [waitUntil]), and no call is made
    to the cache or to the analytics endpoint. *)
Theorem non_reporting_request_is_forwarded (w : World) (req : Request) (st : State) :
  isAPIPath (pathnameOf req) = false ->
  (fetch w req st).1 = destination w req
  /\ kv (fetch w req st).2 = kv st
  /\ exists tel,
       trace (fetch w req st).2 = trace st ++ tel ++ [forwardEffect req]
       /\ forallb (fun e => negb (isRouting e)) tel = true.
Proof.
  intros Hapi. destruct (telemetry_effects w req st) as (tel & n & Htel & _ & ->).
  unfold route. rewrite Hapi, forward_run. cbn.
  split; [done|]. split; [done|]. exists tel. by rewrite <- app_assoc.
Qed.



(** ** The gateway: every outcome *)

Lemma cacheWrites_app (t1 t2 : list Effect) :
  cacheWrites (t1 ++ t2) = cacheWrites t1 ++ cacheWrites t2.
Proof. unfold cacheWrites. apply omap_app. Qed.

Lemma cacheWrites_not_routing (t : list Effect) :
  forallb (fun e => negb (isRouting e)) t = true -> cacheWrites t = [].
Proof.
  induction t as [|e t IH]; [done|]. cbn [forallb].
  intros [He Ht]%andb_true_iff. destruct e; try discriminate; by apply IH.
Qed.

(** A run of the part of the handler that follows the telemetry block. *)
Lemma route_cases (w : World) (req : Request) (st : State) :
  exists t,
    trace (route w req st).2 = trace st ++ t
    /\ ((kv (route w req st).2 = kv st /\ cacheWrites t = [])
        \/ (exists text data,
              supported (pathnameOf req)
              /\ (route w req st).1 = Ret (jsonResponse data "MISS")
              /\ kv (route w req st).2
                 = <[pathnameOf req := (text, 60)]> (kv st)
              /\ cacheWrites t = [(pathnameOf req, text, 60)])).
Proof.
  unfold route. destruct (isAPIPath (pathnameOf req));
    [|rewrite forward_run; exists [forwardEffect req]; split; [done|]; left;
      split; [done|]; unfold forwardEffect; by destruct (String.eqb _ _)].
  destruct (rejected w req);
    [exists []; rewrite app_nil_r; split; [done|]; by left|].
  unfold dispatch.
  destruct (selectSql (pathnameOf req)) as [sql|] eqn:Hsel;
    [|exists []; rewrite app_nil_r; split; [done|]; by left].
  destruct (selectSql_supported _ _ Hsel) as (Hsup & Hne & _).
  destruct (gateway_cases w (pathnameOf req) sql st Hne)
    as (t & Ht & _ & [(_ & [e He] & Hkv & Hw)
                     |[([resp [Hr _]] & Hkv & Hw)|(text & data & Hr & Hkv & Hw)]]);
    unfold bind; destruct (gateway w (pathnameOf req) sql st) as [r st'];
    cbn in *; subst r; exists t; (split; [done|]).
  - by left.
  - by left.
  - right. by exists text, data.
Qed.

(** X5. The store is written only by a miss that answers: in any run of the
    handler either no cache write is made and the store is unchanged, or
    the path is one of the three supported paths, the one write puts a text
    under that path with a TTL of 60 seconds, and the response is the 200
    response with cache status [MISS]. A failed query is never cached. *)
Theorem cache_written_only_by_miss (w : World) (req : Request) (st : State) :
  (cacheWrites (drop (length (trace st)) (trace (fetch w req st).2)) = []
   /\ kv (fetch w req st).2 = kv st)
  \/ (exists text data,
        supported (pathnameOf req)
        /\ (fetch w req st).1 = Ret (jsonResponse data "MISS")
        /\ status (jsonResponse data "MISS") = 200
        /\ kv (fetch w req st).2 = <[pathnameOf req := (text, 60)]> (kv st)
        /\ cacheWrites (drop (length (trace st)) (trace (fetch w req st).2))
           = [(pathnameOf req, text, 60)]).
Proof.
  destruct (telemetry_effects w req st) as (tel & n & Htel & _ & ->).
  set (st1 := mkState (kv st) n (trace st ++ tel)).
  destruct (route_cases w req st1) as (t & Ht & H).
  rewrite Ht. cbn [trace st1]. rewrite <- app_assoc, drop_app_length.
  rewrite cacheWrites_app, (cacheWrites_not_routing tel Htel). cbn [app].
  destruct H as [[Hkv Hw]|(text & data & Hsup & Hr & Hkv & Hw)].
  - left. by rewrite Hw, Hkv.
  - right. exists text, data. by rewrite Hw, Hkv, Hr.
Qed.

(** X6. A request under the reporting prefix is always answered by the
    handler itself, provided the text cached under its path, if any, is
    readable JSON: the handler returns a response, never a failure, and its
    status is 200, 401, 404 or 500. *)
Theorem reporting_request_is_always_answered (w : World) (req : Request) (st : State) :
  isAPIPath (pathnameOf req) = true ->
  readable st (pathnameOf req) ->
  exists resp,
    (fetch w req st).1 = Ret resp
    /\ (status resp = 200 \/ status resp = 401 \/ status resp = 404
        \/ status resp = 500).
Proof.
  intros Hapi Hread. rewrite (proj1 (fetch_route w req st)).
  unfold route. rewrite Hapi.
  destruct (rejected w req); [eexists; split; [reflexivity|auto]|].
  unfold dispatch.
  destruct (selectSql (pathnameOf req)) as [sql|] eqn:Hsel;
    [|eexists; split; [reflexivity|auto]].
  destruct (selectSql_supported _ _ Hsel) as (_ & Hne & _).
  destruct (gateway_cases w (pathnameOf req) sql st Hne)
    as (t & _ & _ & [([ttl Hu] & _)
                    |[([resp [Hr Hs]] & _)|(text & data & Hr & _)]]).
  - by destruct (Hread ttl).
  - unfold bind. destruct (gateway w (pathnameOf req) sql st) as [r st'].
    cbn in *; subst r. exists resp. split; [done|]. destruct Hs as [[-> _]| ->]; auto.
  - unfold bind. destruct (gateway w (pathnameOf req) sql st) as [r st'].
    cbn in *; subst r. eexists. split; [reflexivity|]. by left.
Qed.

(** X7. On a miss, when the call to the analytics endpoint itself fails (no
    reply at all), the response is a 500 whose body is the text of the
    error, [String(err)], and a line feed: the name and the message with a
    colon between them, or the one of the two that is not empty. The store
    is unchanged and no cache write is made. *)
Theorem upstream_transport_error_is_500
  (w : World) (req : Request) (st : State) (sql : string) (e : JSError) :
  admitted w req ->
  selectSql (pathnameOf req) = Some sql ->
  cacheMiss st (pathnameOf req) ->
  apiFetch w (apiCall (ACCOUNT_ID w) (ANALYTICS_API_TOKEN w) sql) = Throw e ->
  fetch w req st
  = (Ret (mkResponse 500 (BodyText (errorToString e +:+ newline)) textPlain None),
     after st (kv st)
       [KvGet (pathnameOf req);
        ApiFetch (apiCall (ACCOUNT_ID w) (ANALYTICS_API_TOKEN w) sql)])
  /\ (err_message e = "" -> errorToString e = err_name e)
  /\ (err_name e = "" -> errorToString e = err_message e)
  /\ (err_name e <> "" -> err_message e <> "" ->
      errorToString e = err_name e +:+ ": " +:+ err_message e).
Proof.
  intros Hadm Hsql Hmiss Hapi.
  destruct (selectSql_supported _ _ Hsql) as (_ & Hne & _ & _).
  rewrite (fetch_supported w req st sql Hadm Hsql).
  split.
  - apply answerQuery_some. rewrite gateway_miss by done.
    run_gateway. rewrite Hapi. cbn. by rewrite <- app_assoc.
  - unfold errorToString.
    destruct (String.eqb_spec (err_name e) "") as [En|En],
             (String.eqb_spec (err_message e) "") as [Em|Em];
      repeat split; intros; congruence.
Qed.

(** X8. On a miss, when the endpoint answers with a success status and the
    JSON body [null], reading its [data] field throws: the response is a
    500 carrying a [TypeError], and nothing is cached. *)
Theorem null_body_is_500
  (w : World) (req : Request) (st : State) (sql : string) (reply : ApiReply) :
  admitted w req ->
  selectSql (pathnameOf req) = Some sql ->
  cacheMiss st (pathnameOf req) ->
  apiFetch w (apiCall (ACCOUNT_ID w) (ANALYTICS_API_TOKEN w) sql) = Ret reply ->
  reply_ok reply = true ->
  reply_json reply = Ret VNull ->
  exists message,
    fetch w req st
    = (Ret (mkResponse 500 (BodyText ("TypeError: " +:+ message +:+ newline))
                       textPlain None),
       after st (kv st)
         [KvGet (pathnameOf req);
          ApiFetch (apiCall (ACCOUNT_ID w) (ANALYTICS_API_TOKEN w) sql)]).
Proof.
  intros Hadm Hsql Hmiss Hapi Hok Hjson.
  destruct (selectSql_supported _ _ Hsql) as (_ & Hne & _ & _).
  rewrite (fetch_supported w req st sql Hadm Hsql).
  eexists. apply answerQuery_some. rewrite gateway_miss by done.
  run_gateway. rewrite Hapi, Hok, Hjson. cbn. rewrite <- app_assoc.
  reflexivity.
Qed.

(** X9. A miss followed by a hit: once a miss has stored a truthy [data]
    field, any admitted request for the same path, whatever the analytics
    endpoint would answer by then, is served that same payload with cache
    status [HIT], by the cache lookup alone. *)
Theorem miss_then_hit
  (w : World) (req : Request) (st : State) (sql : string)
  (reply : ApiReply) (result : JSValue) (w' : World) (req' : Request) :
  admitted w req ->
  selectSql (pathnameOf req) = Some sql ->
  cacheMiss st (pathnameOf req) ->
  apiFetch w (apiCall (ACCOUNT_ID w) (ANALYTICS_API_TOKEN w) sql) = Ret reply ->
  reply_ok reply = true ->
  reply_json reply = Ret result ->
  JS.notNullish result = true ->
  JS.truthy (JS.getProp result "data") = true ->
  admitted w' req' ->
  pathnameOf req' = pathnameOf req ->
  (fetch w req st).1
  = Ret (mkResponse 200 (BodyJson (JS.getProp result "data")) applicationJson
                    (Some "MISS"))
  /\ fetch w' req' (fetch w req st).2
     = (Ret (mkResponse 200 (BodyJson (JS.getProp result "data")) applicationJson
                        (Some "HIT")),
        after (fetch w req st).2 (kv (fetch w req st).2) [KvGet (pathnameOf req)]).
Proof.
  intros Hadm Hsql Hmiss Hapi Hok Hjson Hres Hdata Hadm' Hpath.
  destruct (selectSql_supported _ _ Hsql) as (_ & Hne & _ & _).
  assert (Hdef : JS.getProp result "data" <> VUndefined)
    by (intros E; by rewrite E in Hdata).
  rewrite (fetch_supported w req st sql Hadm Hsql).
  rewrite (answerQuery_some w req sql st _ _
             (gateway_miss_success w _ sql st reply result _
                Hne Hmiss Hapi Hok Hjson Hres eq_refl Hdef)).
  split; [done|].
  rewrite (fetch_supported w' req' _ sql Hadm') by (by rewrite Hpath).
  apply answerQuery_some. rewrite Hpath. apply gateway_hit; [done|].
  exists 60. split; [|done]. cbn. apply lookup_insert_eq.
Qed.

(** ** The analytics client *)

Lemma queryAnalyticsEngine_state
      (w : World) (accountId apiToken sql : string) (st : State) :
  (queryAnalyticsEngine w accountId apiToken sql st).2
  = after st (kv st) [ApiFetch (apiCall accountId apiToken sql)].
Proof.
  unfold queryAnalyticsEngine, callApi, bind, emit, lift, throw, after. cbn.
  destruct (apiFetch w (apiCall accountId apiToken sql)) as [reply|e]; [|done].
  cbn. by destruct (reply_ok reply).
Qed.

(** X10. Whatever the endpoint answers (no reply, an error status, a body
    that is not JSON, rows on which the conversion throws), a call of the
    query helper makes exactly one request, a POST of the query text as
    [text/plain] with the bearer token to the account's SQL endpoint, and
    touches nothing else: the store and the identifiers drawn are
    unchanged. *)
Theorem queryAnalyticsEngine_makes_one_call
  (w : World) (accountId apiToken sql : string) (st : State) :
  (queryAnalyticsEngine w accountId apiToken sql st).2
  = after st (kv st)
      [ApiFetch (mkApiCall "POST"
                   ("https://api.cloudflare.com/client/v4/accounts/" +:+ accountId
                    +:+ "/analytics_engine/sql")
                   ("Bearer " +:+ apiToken) "text/plain" sql)].
Proof. apply queryAnalyticsEngine_state. Qed.

Lemma indexValue_returns (r : JSValue) (i : nat) :
  JS.notNullish r = true -> exists v, indexValue r i = Ret v.
Proof. destruct r; try discriminate; intros _; cbn; eauto. Qed.

Lemma fillObject_returns (cols : list string) (i : nat) (r : JSValue)
      (detached : bool) (obj : list (string * JSValue)) :
  JS.notNullish r = true ->
  exists obj', fillObject cols i r detached obj = Ret obj'.
Proof.
  intros Hr. revert i detached obj.
  induction cols as [|c cols IH]; intros i detached obj; cbn [fillObject].
  - eauto.
  - destruct (indexValue_returns r i Hr) as [v ->].
    destruct (JS.setProp detached obj c v) as [d o]. apply IH.
Qed.

Lemma rowToObject_throws (c : string) (cols : list string) (r : JSValue) :
  (exists e, rowToObject (c :: cols) r = Throw e) <-> JS.notNullish r = false.
Proof.
  unfold rowToObject. destruct (JS.notNullish r) eqn:Hr.
  - destruct (fillObject_returns (c :: cols) 0 r false [] Hr) as [obj ->].
    split; [by intros [e ?]|done].
  - split; [done|]. intros _. destruct r; try discriminate; cbn; eauto.
Qed.

Lemma mapRows_throws (c : string) (cols : list string) (rows : list JSValue) :
  (exists e, mapRows (rowToObject (c :: cols)) rows = Throw e)
  <-> Exists (fun r => JS.notNullish r = false) rows.
Proof.
  induction rows as [|r rows IH]; cbn [mapRows].
  - split; [by intros [e ?]|by intros ?%Exists_nil].
  - rewrite Exists_cons, <- IH, <- (rowToObject_throws c cols r).
    destruct (rowToObject (c :: cols) r) as [o|e]; [|split; eauto].
    destruct (mapRows (rowToObject (c :: cols)) rows) as [os|e].
    + split; [by intros [e ?]|]. by intros [[e ?]|[e ?]].
    + split; eauto.
Qed.

Lemma mapRows_length (f : JSValue -> Exc JSValue) (rows its : list JSValue) :
  mapRows f rows = Ret its -> length its = length rows.
Proof.
  revert its. induction rows as [|r rows IH]; intros its; cbn.
  - by intros [= <-].
  - destruct (f r); [|done]. destruct (mapRows f rows) as [os|]; [|done].
    intros [= <-]. cbn. by rewrite (IH os).
Qed.

(** X11. The normalizer throws exactly when there are column names, the
    first row is an array, and some row is [null] (or [undefined]); on
    every other parsed body it returns a result. *)
Theorem normalize_throws_iff (body : JSValue) :
  (exists e, normalize body = Throw e)
  <-> extractCols body <> []
      /\ JS.isArray (nth 0 (extractRows body) VUndefined) = true
      /\ Exists (fun r => JS.notNullish r = false) (extractRows body).
Proof.
  unfold normalize. rewrite if_same.
  destruct (extractCols body) as [|c cols].
  - cbn. split; [by intros [e ?]|]. by intros [? _].
  - destruct (extractRows body) as [|r rows] eqn:Hrows.
    + cbn. split; [by intros [e ?]|]. by intros (_ & ? & _).
    + cbn [length Nat.ltb Nat.leb andb nth].
      destruct (JS.isArray r).
      * rewrite <- (mapRows_throws c cols (r :: rows)).
        destruct (mapRows (rowToObject (c :: cols)) (r :: rows)) as [its|e].
        -- split; [by intros [e ?]|]. by intros (_ & _ & [e ?]).
        -- split; [intros _; eauto|intros _; eauto].
      * split; [by intros [e ?]|]. by intros (_ & ? & _).
Qed.

(** X12. Whenever the normalizer returns, there is one item per row and the
    count is their number, whichever branch produced the items. *)
Theorem normalize_one_item_per_row (body : JSValue) (r : AEQueryResult) :
  normalize body = Ret r ->
  count r = length (extractRows body)
  /\ length (items r) = length (extractRows body).
Proof.
  unfold normalize. rewrite if_same.
  match goal with |- context [if ?c then _ else _] => destruct c end.
  - destruct (mapRows _ _) as [its|e] eqn:E; [|done].
    intros [= <-]. cbn. by rewrite (mapRows_length _ _ _ E).
  - by intros [= <-].
Qed.

Lemma zipRow_lookup (cols : list string) (row : list JSValue) (f : nat -> nat)
      (i : nat) (c : string) :
  NoDup cols -> cols !! i = Some c ->
  JS.lookupProp c (imap (fun j c => (c, nth (f j) row VUndefined)) cols)
  = nth (f i) row VUndefined.
Proof.
  revert f i. induction cols as [|c' cols IH]; intros f i Hnd Hi; [done|].
  apply NoDup_cons in Hnd as [Hc Hnd]. cbn.
  destruct i as [|i]; cbn in Hi.
  - injection Hi as ->. by rewrite String.eqb_refl.
  - destruct (String.eqb_spec c c') as [->|_].
    + destruct Hc. by eapply list_elem_of_lookup_2.
    + apply (IH (f ∘ S) i Hnd Hi).
Qed.

Lemma ownKeys_plain (props : list (string * JSValue)) :
  Forall (fun k => JS.arrayIndex k = None) props.*1 ->
  JS.ownKeys props = props.*1.
Proof.
  unfold JS.ownKeys. intros H.
  assert (Hidx : fold_right
                   (fun (p : string * JSValue) acc =>
                      match JS.arrayIndex (fst p) with
                      | Some n => JS.insertIndex n (fst p) acc
                      | None => acc
                      end) [] props = []).
  { induction props as [|[k v] props IH]; [done|].
    apply Forall_cons in H as [Hk Hrest]. cbn in *. rewrite Hk. by apply IH. }
  rewrite Hidx. cbn [map app]. clear Hidx.
  induction props as [|[k v] props IH]; [done|].
  apply Forall_cons in H as [Hk Hrest]. cbn in *. rewrite Hk.
  f_equal. by apply IH.
Qed.

(** X13. For a matrix of rows under distinct column names, none of them
    [__proto__] and none of them an array index (a name made of the digits
    of an integer), item [j] is an object that lists its keys in column
    order and whose value under column [i] is element [i] of row [j], or
    [undefined] when the row is shorter. *)
Theorem normalize_matrix_lookup (body : JSValue) (c : string) (cols : list string)
      (r : list JSValue) (rows : list (list JSValue)) :
  extractCols body = c :: cols ->
  extractRows body = VArr <$> (r :: rows) ->
  NoDup (c :: cols) -> "__proto__" ∉ c :: cols ->
  Forall (fun k => JS.arrayIndex k = None) (c :: cols) ->
  exists its,
    normalize body = Ret (mkResult (S (length rows)) its)
    /\ forall j row, (r :: rows) !! j = Some row ->
         exists props,
           its !! j = Some (VObj props)
           /\ JS.ownKeys props = c :: cols
           /\ forall i col, (c :: cols) !! i = Some col ->
                JS.lookupProp col props = nth i row VUndefined.
Proof.
  intros Hc Hr Hnd Hproto Hplain.
  rewrite (normalize_matrix body c cols r rows Hc Hr Hnd Hproto).
  eexists. split; [reflexivity|]. intros j row Hj.
  exists (imap (fun i col => (col, nth i row VUndefined)) (c :: cols)).
  assert (Hkeys : (imap (fun i col => (col, nth i row VUndefined)) (c :: cols)).*1
                  = c :: cols).
  { rewrite fmap_imap. clear. generalize (c :: cols). intros l.
    change (imap (fun _ x => x) l = l).
    induction l as [|x l IH]; [done|]. cbn. f_equal.
    by rewrite <- IH at 2. }
  split; [by rewrite list_lookup_fmap, Hj|]. split.
  - rewrite ownKeys_plain; by rewrite Hkeys.
  - intros i col Hi. apply (zipRow_lookup (c :: cols) row id i col Hnd Hi).
Qed.

(** A column whose name is an array index is listed before the others. *)
Example integer_like_column_is_listed_first :
  exists props,
    rowToObject ["b"; "10"; "2"] (VArr [VNum 1; VNum 2; VNum 3]) = Ret (VObj props)
    /\ props.*1 = ["b"; "10"; "2"]
    /\ JS.ownKeys props = ["2"; "10"; "b"].
Proof. eexists. repeat split; reflexivity. Qed.

(** Once a [null] under the column [__proto__] has cut the object off its
    prototype, a second column of that name becomes an own property. *)
Example proto_column_after_null :
  rowToObject ["__proto__"; "__proto__"; "a"] (VArr [VNull; VNum 5; VNum 6])
  = Ret (VObj [("__proto__", VNum 5); ("a", VNum 6)])
  /\ rowToObject ["__proto__"; "a"] (VArr [VNum 5; VNum 6])
     = Ret (VObj [("a", VNum 6)]).
Proof. split; reflexivity. Qed.

Lemma lookup_setOwn (obj : list (string * JSValue)) (c k : string) (v : JSValue) :
  JS.lookupProp k (JS.setOwn obj c v)
  = if String.eqb k c then v else JS.lookupProp k obj.
Proof.
  induction obj as [|[k' v'] obj IH]; cbn.
  - by destruct (String.eqb k c).
  - destruct (String.eqb_spec c k') as [->|Hne]; cbn.
    + by destruct (String.eqb k k').
    + rewrite IH. destruct (String.eqb_spec k k') as [->|]; [|done].
      destruct (String.eqb_spec k' c); [congruence|done].
Qed.

Lemma fillObject_lookup (row : list JSValue) (cols : list string) (i : nat)
      (obj : list (string * JSValue)) :
  "__proto__" ∉ cols ->
  exists obj',
    fillObject cols i (VArr row) false obj = Ret obj'
    /\ forall k, JS.lookupProp k obj'
                 = match lastIndex k cols i with
                   | Some j => nth j row VUndefined
                   | None => JS.lookupProp k obj
                   end.
Proof.
  revert i obj. induction cols as [|c cols IH]; intros i obj Hproto.
  - by exists obj.
  - apply not_elem_of_cons in Hproto as [Hp Hproto].
    cbn [fillObject indexValue lastIndex]. rewrite setProp_plain by congruence.
    destruct (IH (S i) (JS.setOwn obj c (nth i row VUndefined)) Hproto)
      as (obj' & -> & Hl).
    exists obj'. split; [done|]. intros k. rewrite Hl.
    destruct (lastIndex k cols (S i)); [done|].
    rewrite lookup_setOwn. by destruct (String.eqb k c).
Qed.

(** X14. When a column name occurs more than once, the later column wins:
    the object made of a row holds, under each name, the row's element at
    the last index where that name occurs among the columns, and nothing
    under a name that is not a column. *)
Theorem duplicate_column_last_wins (cols : list string) (row : list JSValue) :
  "__proto__" ∉ cols ->
  exists props,
    rowToObject cols (VArr row) = Ret (VObj props)
    /\ forall k, JS.lookupProp k props
                 = match lastIndex k cols 0 with
                   | Some j => nth j row VUndefined
                   | None => VUndefined
                   end.
Proof.
  intros Hproto. unfold rowToObject.
  destruct (fillObject_lookup row cols 0 [] Hproto) as (props & -> & Hl).
  by exists props.
Qed.

(** ** The earlier handler *)

Lemma logPhpAttemptV1_run (w : World) (req : Request) (st : State) :
  logPhpAttemptV1 w req (pathnameOf req) st
  = (Ret tt,
     after st (kv st)
       (WriteDataPoint (accessEventV1 req)
          :: match sink w (accessEventV1 req) with
             | SinkAccepts => [WaitUntil Settles]
             | SinkThrows e => [ConsoleError "Failed to log .php attempt:" e]
             | SinkRejects e =>
                 [WaitUntil (LogsRejection "AE writeDataPoint failed:" e)]
             end)).
Proof.
  unfold logPhpAttemptV1, tryCatch, bind, writeDataPoint, catchRejection,
    emit, ret, throw, after.
  rewrite extractCfInfo_fields. cbn.
  fold (accessEventV1 req).
  destruct (sink w (accessEventV1 req)); cbn; by rewrite <- ?app_assoc.
Qed.

Lemma adminEndpoint_run (env : EnvV1) (r : RequestV1) (st : State) :
  adminEndpoint env r st
  = if String.eqb (orEmpty (req_adminToken r)) (ADMIN_TOKEN env)
    then (Ret (adminResponse
                 (queryAnalyticsEngine (v1_world env) (ACCOUNT_ID (v1_world env))
                    (ANALYTICS_API_TOKEN (v1_world env)) sqlV1 st).1),
          after st (kv st) [ApiFetch (adminCall env)])
    else (Ret (textResponse 401 "Unauthorized"), st).
Proof.
  unfold adminEndpoint.
  destruct (String.eqb (orEmpty (req_adminToken r)) (ADMIN_TOKEN env)); [|done].
  cbn [negb]. unfold tryCatch, bind, adminCall.
  pose proof (queryAnalyticsEngine_state (v1_world env)
                (ACCOUNT_ID (v1_world env)) (ANALYTICS_API_TOKEN (v1_world env))
                sqlV1 st) as Hst.
  destruct (queryAnalyticsEngine _ _ _ _ st) as [[result|e] st']; cbn in *;
    subst st'; [done|].
  done.
Qed.

Lemma fetchV1_admin (env : EnvV1) (r : RequestV1) (st : State) :
  req_pathname (v1_request r) = "/_php_log" ->
  fetchV1 env r st = adminEndpoint env r st.
Proof.
  intros H. unfold fetchV1, pathnameOf, bind. by rewrite H.
Qed.

Lemma fetchV1_other (env : EnvV1) (r : RequestV1) (st : State) :
  req_pathname (v1_request r) <> "/_php_log" ->
  fetchV1 env r st
  = (destination (v1_world env) (v1_request r),
     after (if isPhpPath (pathnameOf (v1_request r))
            then (logPhpAttemptV1 (v1_world env) (v1_request r)
                    (pathnameOf (v1_request r)) st).2
            else st)
           (kv st) [forwardEffect (v1_request r)]).
Proof.
  intros H. unfold fetchV1, bind.
  destruct (String.eqb_spec (req_pathname (v1_request r)) "/_php_log"); [done|].
  destruct (isPhpPath (pathnameOf (v1_request r))).
  - rewrite logPhpAttemptV1_run. cbn. by rewrite forward_run.
  - cbn. by rewrite forward_run.
Qed.


(** X16. The earlier handler's reporting path compares the [x-admin-token]
    header, taken as empty when absent, with the configured token: when
    they differ the answer is 401 with nothing else done; when they are
    equal (so also for a request without the header when the configured
    token is empty) exactly one query is sent to the analytics endpoint. *)
Theorem v1_admin_token_check (env : EnvV1) (r : RequestV1) (st : State) :
  req_pathname (v1_request r) = "/_php_log" ->
  (orEmpty (req_adminToken r) <> ADMIN_TOKEN env ->
   fetchV1 env r st = (Ret (textResponse 401 "Unauthorized"), st))
  /\ (orEmpty (req_adminToken r) = ADMIN_TOKEN env ->
      (fetchV1 env r st).2 = after st (kv st) [ApiFetch (adminCall env)]
      /\ exists resp, (fetchV1 env r st).1 = Ret resp /\ status resp <> 401).
Proof.
  intros Hpath. rewrite (fetchV1_admin env r st Hpath), adminEndpoint_run.
  destruct (String.eqb_spec (orEmpty (req_adminToken r)) (ADMIN_TOKEN env)).
  - split; [done|]. intros _. split; [done|]. eexists. split; [reflexivity|].
    unfold adminResponse. by destruct (queryAnalyticsEngine _ _ _ _ _).1.
  - split; [done|]. done.
Qed.

(** X17. In the earlier handler a body that is not JSON, on a success
    status, is an empty result: the response is 200 with the JSON of
    [{ count: 0, items: [] }]. *)
Theorem v1_malformed_body_is_empty_result
  (env : EnvV1) (r : RequestV1) (st : State) (reply : ApiReply) (e : JSError) :
  req_pathname (v1_request r) = "/_php_log" ->
  orEmpty (req_adminToken r) = ADMIN_TOKEN env ->
  apiFetch (v1_world env) (adminCall env) = Ret reply ->
  reply_ok reply = true ->
  reply_json reply = Throw e ->
  (fetchV1 env r st).1
  = Ret (mkResponse 200
           (BodyJson (VObj [("count", VNum 0); ("items", VArr [])]))
           applicationJson None).
Proof.
  intros Hpath Htok Hreply Hok Hjson.
  rewrite (fetchV1_admin env r st Hpath), adminEndpoint_run, Htok, String.eqb_refl.
  cbn [fst]. by rewrite (queryAnalyticsEngine_malformed _ _ _ _ st reply e
                          Hreply Hok Hjson).
Qed.

(** X18. In the earlier handler a reply with a status outside 200-299 gives
    a 500 whose body is [AE query failed: Error: Analytics API error ],
    the status, [: ] and the text of the reply's body (empty when it cannot
    be read). *)
Theorem v1_upstream_failure_is_500
  (env : EnvV1) (r : RequestV1) (st : State) (reply : ApiReply) :
  req_pathname (v1_request r) = "/_php_log" ->
  orEmpty (req_adminToken r) = ADMIN_TOKEN env ->
  apiFetch (v1_world env) (adminCall env) = Ret reply ->
  reply_ok reply = false ->
  (fetchV1 env r st).1
  = Ret (mkResponse 500
           (BodyText ("AE query failed: Error: Analytics API error "
                      +:+ JS.decimal (reply_status reply) +:+ ": "
                      +:+ default "" (reply_text reply)))
           textPlain None).
Proof.
  intros Hpath Htok Hreply Hok.
  rewrite (fetchV1_admin env r st Hpath), adminEndpoint_run, Htok, String.eqb_refl.
  cbn [fst]. unfold queryAnalyticsEngine, callApi, bind, emit, lift, throw. cbn.
  fold (adminCall env). rewrite Hreply, Hok. cbn. unfold textOrEmpty.
  by destruct (reply_text reply).
Qed.

(** X19. The earlier handler's reporting path always answers: whatever the
    token and whatever the analytics endpoint does (no reply, an error
    status, a body that is not JSON, a [null] row), the handler returns a
    response with status 200, 401 or 500, never a failure, and the store is
    untouched. *)
Theorem v1_admin_always_answers (env : EnvV1) (r : RequestV1) (st : State) :
  req_pathname (v1_request r) = "/_php_log" ->
  (exists resp,
     (fetchV1 env r st).1 = Ret resp
     /\ (status resp = 200 \/ status resp = 401 \/ status resp = 500))
  /\ kv (fetchV1 env r st).2 = kv st.
Proof.
  intros Hpath. rewrite (fetchV1_admin env r st Hpath), adminEndpoint_run.
  destruct (String.eqb _ (ADMIN_TOKEN env)).
  - split; [|done]. eexists. split; [reflexivity|].
    unfold adminResponse. destruct (queryAnalyticsEngine _ _ _ _ _).1; auto.
  - split; [|done]. eexists. split; [reflexivity|]. auto.
Qed.

(** X20. In the earlier handler only the exact path [/_php_log] is the
    reporting path: every other path (also [/_php_log_top] or [/_PHP_LOG])
    is forwarded to its destination, with no query to the analytics
    endpoint and the store untouched. *)
Theorem v1_other_paths_are_forwarded (env : EnvV1) (r : RequestV1) (st : State) :
  req_pathname (v1_request r) <> "/_php_log" ->
  (fetchV1 env r st).1 = destination (v1_world env) (v1_request r)
  /\ kv (fetchV1 env r st).2 = kv st
  /\ upstreamQueries (drop (length (trace st)) (trace (fetchV1 env r st).2)) = [].
Proof.
  intros Hpath. rewrite (fetchV1_other env r st Hpath).
  split; [done|]. split; [done|].
  destruct (isPhpPath (pathnameOf (v1_request r))).
  - rewrite logPhpAttemptV1_run. cbn. rewrite <- app_assoc, drop_app_length.
    unfold forwardEffect. destruct (sink _ _); by destruct (String.eqb _ _).
  - cbn. rewrite drop_app_length. unfold forwardEffect.
    by destruct (String.eqb _ _).
Qed.

(** ** The edge metadata and the user agent *)

(** X21. When the request carries no usable edge metadata ([cf] missing,
    [null] or anything that is not an object) the three fields take their
    defaults: country [ZZ], empty region, ASN [0]. *)
Theorem extractCfInfo_without_metadata (req : Request) :
  (forall props, req_cf req <> VObj props) ->
  extractCfInfo req = mkCfInfo "ZZ" "" "0".
Proof.
  intros H. unfold extractCfInfo.
  destruct (req_cf req) as [| |[]|n|s|l|props]; cbn; try done.
  - by destruct (n =? 0).
  - by destruct (String.eqb s "").
  - by destruct (H props).
Qed.




(** ** The further properties at concrete requests *)

Lemma non_reporting_request_is_forwarded_witness :
  isAPIPath (pathnameOf (sampleRequest "/wp-login.php" None)) = false
  /\ (fetch (sampleWorld "s3cret" apiDown) (sampleRequest "/wp-login.php" None)
            emptyState).1 = Ret originResponse.
Proof.
  split; [reflexivity|].
  destruct (non_reporting_request_is_forwarded (sampleWorld "s3cret" apiDown)
              (sampleRequest "/wp-login.php" None) emptyState eq_refl) as [H _].
  exact H.
Defined.



Lemma reporting_request_is_always_answered_witness :
  isAPIPath (pathnameOf (sampleRequest "/_php_log_last" None)) = true
  /\ readable emptyState (pathnameOf (sampleRequest "/_php_log_last" None))
  /\ exists resp,
       (fetch (sampleWorld "" apiDown) (sampleRequest "/_php_log_last" None)
              emptyState).1 = Ret resp
       /\ (status resp = 200 \/ status resp = 401 \/ status resp = 404
           \/ status resp = 500).
Proof.
  assert (Hread : readable emptyState
                    (pathnameOf (sampleRequest "/_php_log_last" None))).
  { intros ttl H. vm_compute in H. discriminate. }
  split; [reflexivity|]. split; [exact Hread|].
  exact (reporting_request_is_always_answered (sampleWorld "" apiDown)
           (sampleRequest "/_php_log_last" None) emptyState eq_refl Hread).
Defined.

Lemma upstream_transport_error_is_500_witness :
  let silent := sampleWorld "" (fun _ => Throw (mkError "TypeError" "")) in
  admitted (sampleWorld "" apiDown) (sampleRequest "/_php_log_top" None)
  /\ cacheMiss emptyState (pathnameOf (sampleRequest "/_php_log_top" None))
  /\ (fetch (sampleWorld "" apiDown) (sampleRequest "/_php_log_top" None)
            emptyState).1
     = Ret (mkResponse 500 (BodyText ("TypeError: fetch failed" +:+ newline))
                       textPlain None)
  /\ (fetch silent (sampleRequest "/_php_log_top" None) emptyState).1
     = Ret (mkResponse 500 (BodyText ("TypeError" +:+ newline)) textPlain None).
Proof.
  intros silent.
  assert (Hadm : admitted (sampleWorld "" apiDown)
                          (sampleRequest "/_php_log_top" None))
    by (left; reflexivity).
  assert (Hadm' : admitted silent (sampleRequest "/_php_log_top" None))
    by (left; reflexivity).
  assert (Hmiss : cacheMiss emptyState
                    (pathnameOf (sampleRequest "/_php_log_top" None))).
  { left. vm_compute. reflexivity. }
  split; [exact Hadm|]. split; [exact Hmiss|].
  destruct (upstream_transport_error_is_500 (sampleWorld "" apiDown)
              (sampleRequest "/_php_log_top" None) emptyState sqlTop
              (mkError "TypeError" "fetch failed") Hadm eq_refl Hmiss eq_refl)
    as (E & _).
  destruct (upstream_transport_error_is_500 silent
              (sampleRequest "/_php_log_top" None) emptyState sqlTop
              (mkError "TypeError" "") Hadm' eq_refl Hmiss eq_refl)
    as (E' & _).
  split; [rewrite E; reflexivity|rewrite E'; reflexivity].
Defined.

Lemma null_body_is_500_witness :
  let w := sampleWorld "" (apiAnswers 200 "null" (Ret VNull)) in
  let req := sampleRequest "/_php_log_top" None in
  admitted w req
  /\ cacheMiss emptyState (pathnameOf req)
  /\ exists message,
       fetch w req emptyState
       = (Ret (mkResponse 500 (BodyText ("TypeError: " +:+ message +:+ newline))
                          textPlain None),
          after emptyState ∅
            [KvGet "/_php_log_top"; ApiFetch (apiCall "acct" "api-token" sqlTop)]).
Proof.
  intros w req.
  assert (Hadm : admitted w req) by (left; reflexivity).
  assert (Hmiss : cacheMiss emptyState (pathnameOf req)).
  { left. vm_compute. reflexivity. }
  split; [exact Hadm|]. split; [exact Hmiss|].
  exact (null_body_is_500 w req emptyState sqlTop
           (mkApiReply 200 (Some "null") (Ret VNull))
           Hadm eq_refl Hmiss eq_refl eq_refl eq_refl).
Defined.

Lemma miss_then_hit_witness :
  let w := sampleWorld "" (apiAnswers 200 "{}"
                             (Ret (VObj [("data", VArr [VNum 1])]))) in
  let w' := sampleWorld "" apiDown in
  let req := sampleRequest "/_php_log_top" None in
  admitted w req /\ admitted w' req
  /\ cacheMiss emptyState (pathnameOf req)
  /\ (fetch w' req (fetch w req emptyState).2).1
     = Ret (mkResponse 200 (BodyJson (VArr [VNum 1])) applicationJson (Some "HIT")).
Proof.
  intros w w' req.
  assert (Hadm : admitted w req) by (left; reflexivity).
  assert (Hadm' : admitted w' req) by (left; reflexivity).
  assert (Hmiss : cacheMiss emptyState (pathnameOf req)).
  { left. vm_compute. reflexivity. }
  split; [exact Hadm|]. split; [exact Hadm'|]. split; [exact Hmiss|].
  destruct (miss_then_hit w req emptyState sqlTop
              (mkApiReply 200 (Some "{}") (Ret (VObj [("data", VArr [VNum 1])])))
              (VObj [("data", VArr [VNum 1])]) w' req
              Hadm eq_refl Hmiss eq_refl eq_refl eq_refl eq_refl eq_refl
              Hadm' eq_refl) as [_ H].
  rewrite H. reflexivity.
Defined.

Lemma normalize_one_item_per_row_witness :
  normalize matrixBody
  = Ret (mkResult 2 [VObj [("a", VNum 1); ("b", VNum 2)];
                     VObj [("a", VNum 3); ("b", VNum 4)]])
  /\ 2%nat = length (extractRows matrixBody).
Proof.
  split; [reflexivity|].
  destruct (normalize_one_item_per_row matrixBody
              (mkResult 2 [VObj [("a", VNum 1); ("b", VNum 2)];
                           VObj [("a", VNum 3); ("b", VNum 4)]]) eq_refl)
    as [H _].
  exact H.
Defined.

Lemma distinct_columns_ab :
  NoDup ["a"; "b"] /\ ("__proto__" ∉ ["a"; "b"])
  /\ Forall (fun k => JS.arrayIndex k = None) ["a"; "b"].
Proof.
  split; [|split].
  - repeat constructor; rewrite ?elem_of_cons, ?elem_of_nil;
      intros H; repeat destruct H as [H|H]; done.
  - rewrite !elem_of_cons, elem_of_nil.
    intros H; repeat destruct H as [H|H]; done.
  - repeat constructor.
Defined.

Lemma normalize_matrix_lookup_witness :
  extractCols matrixBody = ["a"; "b"]
  /\ extractRows matrixBody = VArr <$> [[VNum 1; VNum 2]; [VNum 3; VNum 4]]
  /\ exists its,
       normalize matrixBody = Ret (mkResult 2 its)
       /\ forall j row, [[VNum 1; VNum 2]; [VNum 3; VNum 4]] !! j = Some row ->
            exists props,
              its !! j = Some (VObj props)
              /\ JS.ownKeys props = ["a"; "b"]
              /\ forall i col, ["a"; "b"] !! i = Some col ->
                   JS.lookupProp col props = nth i row VUndefined.
Proof.
  split; [reflexivity|]. split; [reflexivity|].
  exact (normalize_matrix_lookup matrixBody "a" ["b"] [VNum 1; VNum 2]
           [[VNum 3; VNum 4]] eq_refl eq_refl
           (proj1 distinct_columns_ab) (proj1 (proj2 distinct_columns_ab))
           (proj2 (proj2 distinct_columns_ab))).
Defined.

Lemma duplicate_column_last_wins_witness :
  ("__proto__" ∉ ["a"; "b"; "a"])
  /\ exists props,
       rowToObject ["a"; "b"; "a"] (VArr [VNum 1; VNum 2; VNum 3]) = Ret (VObj props)
       /\ JS.lookupProp "a" props = VNum 3
       /\ JS.lookupProp "b" props = VNum 2.
Proof.
  assert (Hp : "__proto__" ∉ ["a"; "b"; "a"]).
  { rewrite !elem_of_cons, elem_of_nil.
    intros H; repeat destruct H as [H|H]; done. }
  split; [exact Hp|].
  destruct (duplicate_column_last_wins ["a"; "b"; "a"]
              [VNum 1; VNum 2; VNum 3] Hp) as (props & Hr & Hl).
  exists props. split; [exact Hr|].
  split; [apply (Hl "a")|apply (Hl "b")].
Defined.

Lemma v1_admin_token_check_witness :
  req_pathname (v1_request (sampleRequestV1 "/_php_log" (Some "guess"))) = "/_php_log"
  /\ fetchV1 (sampleEnvV1 "s3cret" apiDown)
             (sampleRequestV1 "/_php_log" (Some "guess")) emptyState
     = (Ret (textResponse 401 "Unauthorized"), emptyState)
  /\ (fetchV1 (sampleEnvV1 "" apiDown) (sampleRequestV1 "/_php_log" None)
              emptyState).2
     = after emptyState ∅ [ApiFetch (adminCall (sampleEnvV1 "" apiDown))].
Proof.
  split; [reflexivity|]. split.
  - destruct (v1_admin_token_check (sampleEnvV1 "s3cret" apiDown)
                (sampleRequestV1 "/_php_log" (Some "guess")) emptyState eq_refl)
      as [H _].
    apply H. cbn. discriminate.
  - destruct (v1_admin_token_check (sampleEnvV1 "" apiDown)
                (sampleRequestV1 "/_php_log" None) emptyState eq_refl)
      as [_ H].
    destruct (H eq_refl) as [E _]. exact E.
Defined.

Lemma v1_malformed_body_is_empty_result_witness :
  let env := sampleEnvV1 "s3cret"
               (apiAnswers 200 "<html>" (Throw (mkError "SyntaxError" "bad"))) in
  let r := sampleRequestV1 "/_php_log" (Some "s3cret") in
  orEmpty (req_adminToken r) = ADMIN_TOKEN env
  /\ (fetchV1 env r emptyState).1
     = Ret (mkResponse 200
              (BodyJson (VObj [("count", VNum 0); ("items", VArr [])]))
              applicationJson None).
Proof.
  intros env r. split; [reflexivity|].
  exact (v1_malformed_body_is_empty_result env r emptyState
           (mkApiReply 200 (Some "<html>") (Throw (mkError "SyntaxError" "bad")))
           (mkError "SyntaxError" "bad") eq_refl eq_refl eq_refl eq_refl eq_refl).
Defined.

Lemma v1_upstream_failure_is_500_witness :
  let env := sampleEnvV1 "s3cret" (apiAnswers 503 "busy" (Ret VNull)) in
  let r := sampleRequestV1 "/_php_log" (Some "s3cret") in
  orEmpty (req_adminToken r) = ADMIN_TOKEN env
  /\ (fetchV1 env r emptyState).1
     = Ret (mkResponse 500
              (BodyText "AE query failed: Error: Analytics API error 503: busy")
              textPlain None).
Proof.
  intros env r. split; [reflexivity|].
  rewrite (v1_upstream_failure_is_500 env r emptyState
             (mkApiReply 503 (Some "busy") (Ret VNull))
             eq_refl eq_refl eq_refl eq_refl).
  reflexivity.
Defined.

Lemma v1_admin_always_answers_witness :
  let env := sampleEnvV1 "s3cret" (apiAnswers 200 "" (Ret nullRowBody)) in
  let r := sampleRequestV1 "/_php_log" (Some "s3cret") in
  req_pathname (v1_request r) = "/_php_log"
  /\ (exists resp,
        (fetchV1 env r emptyState).1 = Ret resp
        /\ (status resp = 200 \/ status resp = 401 \/ status resp = 500))
  /\ kv (fetchV1 env r emptyState).2 = ∅.
Proof.
  intros env r. split; [reflexivity|].
  exact (v1_admin_always_answers env r emptyState eq_refl).
Defined.

Lemma v1_other_paths_are_forwarded_witness :
  req_pathname (v1_request (sampleRequestV1 "/_php_log_top" None)) <> "/_php_log"
  /\ (fetchV1 (sampleEnvV1 "s3cret" apiDown)
              (sampleRequestV1 "/_php_log_top" None) emptyState).1
     = Ret originResponse.
Proof.
  assert (H : req_pathname (v1_request (sampleRequestV1 "/_php_log_top" None))
              <> "/_php_log") by (cbn; discriminate).
  split; [exact H|].
  destruct (v1_other_paths_are_forwarded (sampleEnvV1 "s3cret" apiDown)
              (sampleRequestV1 "/_php_log_top" None) emptyState H) as [E _].
  exact E.
Defined.

Lemma extractCfInfo_without_metadata_witness :
  (forall props, req_cf (sampleRequest "/a.php" None) <> VObj props)
  /\ extractCfInfo (sampleRequest "/a.php" None) = mkCfInfo "ZZ" "" "0".
Proof.
  assert (H : forall props, req_cf (sampleRequest "/a.php" None) <> VObj props)
    by (intros props; cbn; discriminate).
  split; [exact H|].
  exact (extractCfInfo_without_metadata (sampleRequest "/a.php" None) H).
Defined.

